(** * The HTTP inference client of batch-gateway: classification and retry

    A shallow embedding of [internal/shared/batch/http_inference_client.go]
    (the client built on a bare [http.Client] with a hand-written retry
    loop) and of the request-level pieces of its sibling built on resty,
    followed by the S3 files client ([Store] and [Delete]) in module [S3].

    Go values are rendered as follows.
    - [int] and [time.Duration] are [Z]; no operation of the retry loop can
      leave the 64-bit range (the loop counter never exceeds [MaxRetries]);
      the one int64 sum that can, in [S3.Store], wraps around.
    - [[]byte] is [list byte], [string] is [string], [string(b)] is
      [String.string_of_list_byte].
    - [map[string]interface{}] is a [gmap string Value] for an arbitrary
      type [Value] of dynamic values; a nil map is the empty map.
    - a pointer that may be nil is an [option].
    - an [error] is the text it prints.
    - a float64 is a [spec_float], and float64 arithmetic is that of IEEE
      754 binary64 as [SpecFloat] defines it: 53 bits of precision, each
      operation rounded to nearest, ties to even.
    - the network, the execution context and the timer are an oracle
      ([World]) read through a state that counts what has been consumed;
      the functions of the Go standard library that are pure are collected
      in [Runtime].
    Diagnostic logging through klog is left out. *)

From Stdlib Require Import ZArith Lia Strings.Ascii Strings.Byte SpecFloat.
From stdpp Require Import base option list strings gmap pretty.

Local Open Scope Z_scope.

(** ** Errors and categories *)

(** A Go [error], identified with the message [%v] prints for it. *)
Inductive goerror : Type :=
  | errors_New (msg : string).

Definition Error (e : goerror) : string :=
  match e with errors_New msg => msg end.

(** What [ctx.Err()] returns once the context is done. *)
Inductive ctxerr : Type :=
  | Canceled
  | DeadlineExceeded.

#[global] Instance ctxerr_eq_dec : EqDecision ctxerr.
Proof. solve_decision. Defined.

Definition ctxerr_error (e : ctxerr) : goerror :=
  match e with
  | Canceled => errors_New "context canceled"
  | DeadlineExceeded => errors_New "context deadline exceeded"
  end.

(** Modelled from the spec: the type [ErrorCategory] and its five constants
    are declared in inference_client.go, which is not among the sources;
    section 7 of the specification lists them. *)
Inductive ErrorCategory : Type :=
  | ErrCategoryRateLimit
  | ErrCategoryServer
  | ErrCategoryInvalidReq
  | ErrCategoryAuth
  | ErrCategoryUnknown.

#[global] Instance ErrorCategory_eq_dec : EqDecision ErrorCategory.
Proof. solve_decision. Defined.

(** Modelled from the spec: the struct [InferenceError] is declared in
    inference_client.go, which is not among the sources; section 3 gives
    its fields, and the client fills exactly these three. *)
Record InferenceError : Type := mkInferenceError {
  Category : ErrorCategory;
  Message : string;
  RawError : option goerror
}.

(** Modelled from the spec: the method [IsRetryable] of [InferenceError] is
    declared in inference_client.go, which is not among the sources;
    section 7 says that only [RateLimit] and [Server] are retryable and
    section 4.3 that the verdict depends on the category alone. *)
Definition IsRetryable (e : InferenceError) : bool :=
  match Category e with
  | ErrCategoryRateLimit | ErrCategoryServer => true
  | ErrCategoryInvalidReq | ErrCategoryAuth | ErrCategoryUnknown => false
  end.

(** The outcome of a library call that returns [(value, error)]. *)
Inductive result (A : Type) : Type :=
  | Ok (a : A)
  | Err (e : goerror).
Arguments Ok {A} a.
Arguments Err {A} e.

(** ** Status codes *)

(** [mapStatusCodeToCategory]: the [switch] with its [default] branch. *)
Definition mapStatusCodeToCategory (statusCode : Z) : ErrorCategory :=
  if statusCode =? 400 then ErrCategoryInvalidReq
  else if (statusCode =? 401) || (statusCode =? 403) then ErrCategoryAuth
  else if statusCode =? 429 then ErrCategoryRateLimit
  else if (statusCode =? 500) || (statusCode =? 502)
          || (statusCode =? 503) || (statusCode =? 504) then ErrCategoryServer
  else if statusCode >=? 500 then ErrCategoryServer
  else ErrCategoryUnknown.

(** ** Configuration *)

(** [RetryConfig]. Durations count nanoseconds; a float64 is the IEEE 754
    value it holds. The float64 fields only feed [calculateBackoff]. *)
Record RetryConfig : Type := mkRetryConfig {
  MaxRetries : Z;
  InitialBackoff : Z;
  MaxBackoff : Z;
  BackoffFactor : spec_float;
  JitterFraction : spec_float
}.

(** [HTTPInferenceClient]; the [*http.Client] is the oracle. *)
Record HTTPInferenceClient : Type := mkHTTPInferenceClient {
  baseURL : string;
  apiKey : string;
  retryConfig : RetryConfig
}.

(** ** Backoff arithmetic *)

(** The operations of float64. *)
Definition float64_mul : spec_float → spec_float → spec_float := SFmul 53 1024.
Definition float64_add : spec_float → spec_float → spec_float := SFadd 53 1024.
Definition float64_sub : spec_float → spec_float → spec_float := SFsub 53 1024.
Definition float64_ltb : spec_float → spec_float → bool := SFltb.

(** The float64 constants [0], [1], [2.0] and [0.1]. *)
Definition float64_0 : spec_float := S754_zero false.
Definition float64_1 : spec_float := S754_finite false 4503599627370496 (-52).
Definition float64_2_0 : spec_float := S754_finite false 4503599627370496 (-51).
Definition float64_0_1 : spec_float := S754_finite false 7205759403792794 (-56).

(** [float64(d)] for an int64 or a [time.Duration]: the nearest float64. *)
Definition float64_of_int64 (d : Z) : spec_float :=
  binary_normalize 53 1024 d 0 false.

(** [time.Duration(x)] for a float64: the fraction is dropped. When the
    value does not fit an int64, and for NaN, Go leaves the result to the
    platform: this is [None]. *)
Definition int64_of_float64 (x : spec_float) : option Z :=
  match x with
  | S754_zero _ => Some 0
  | S754_finite s m e =>
      let magnitude :=
        if 0 <=? e then Z.pos m * 2 ^ e else Z.pos m / 2 ^ (- e) in
      let d := if s then - magnitude else magnitude in
      if (- 2 ^ 63 <=? d) && (d <? 2 ^ 63) then Some d else None
  | _ => None
  end.

(** [calculateBackoff] up to the cap: from [float64(InitialBackoff)],
    [float64(MaxBackoff)] and the value [pow] of
    [math.Pow(BackoffFactor, float64(attempt))]. *)
Definition capped_backoff (initial max pow : spec_float) : spec_float :=
  let backoff := float64_mul initial pow in
  if float64_ltb max backoff then max else backoff.

(** [calculateBackoff] up to the jitter: [JitterFraction] and the draw
    [r] of [rand.Float64()] give the sum of the capped backoff and the
    jitter. Every operation is rounded by itself; Go allows a platform to
    fuse a product and a sum, which amd64 does not do. *)
Definition jittered_backoff (initial max jitterFraction pow r : spec_float)
    : spec_float :=
  let backoff := capped_backoff initial max pow in
  let jitter :=
    float64_mul (float64_mul backoff jitterFraction)
      (float64_sub (float64_mul r float64_2_0) float64_1) in
  float64_add backoff jitter.

(** [calculateBackoff], the float64 that [time.Duration] converts. *)
Definition calculateBackoff_float64
    (initial max jitterFraction pow r : spec_float) : spec_float :=
  let backoff := jittered_backoff initial max jitterFraction pow r in
  if float64_ltb backoff float64_0 then initial else backoff.

(** [calculateBackoff] for a retry configuration, given what [math.Pow]
    and [rand.Float64()] return. *)
Definition calculateBackoff_duration (cfg : RetryConfig)
    (pow r : spec_float) : option Z :=
  int64_of_float64
    (calculateBackoff_float64 (float64_of_int64 (InitialBackoff cfg))
       (float64_of_int64 (MaxBackoff cfg)) (JitterFraction cfg) pow r).

(** ** HTTP messages *)

Record HTTPRequest : Type := mkHTTPRequest {
  Method : string;
  URL : string;
  Header : gmap string string;
  Body : list byte
}.

(** A response as the client sees it: the status code and what
    [io.ReadAll(httpResp.Body)] yields. *)
Record HTTPResponse : Type := mkHTTPResponse {
  StatusCode : Z;
  ReadAll_Body : result (list byte)
}.

(** The anonymous struct [handleErrorResponse] decodes into. *)
Record errorResp : Type := mkErrorResp {
  Error_Code : Z;
  Error_Type : string;
  Error_Message : string;
  Error_Param : string
}.

(** ** Requests and responses of the client *)

(** Modelled from the spec: the struct [InferenceRequest] is declared in
    inference_client.go, which is not among the sources; section 3 gives
    its fields. *)
Record InferenceRequest (Value : Type) : Type := mkInferenceRequest {
  RequestID : string;
  Model : string;
  Params : gmap string Value
}.
Arguments mkInferenceRequest {Value} _ _ _.
Arguments RequestID {Value} _.
Arguments Model {Value} _.
Arguments Params {Value} _.

(** Modelled from the spec: the struct [InferenceResponse] is declared in
    inference_client.go, which is not among the sources; section 3 gives
    its fields. [RawData] is an [interface{}]: [None] is nil. *)
Record InferenceResponse (Value : Type) : Type := mkInferenceResponse {
  RespRequestID : string;
  Response : list byte;
  RawData : option Value
}.
Arguments mkInferenceResponse {Value} _ _ _.
Arguments RespRequestID {Value} _.
Arguments Response {Value} _.
Arguments RawData {Value} _.

(** What [Generate] and [generateOnce] return: a pointer to a response and
    a pointer to an error. *)
Definition Outcome (Value : Type) : Type :=
  (option (InferenceResponse Value) * option InferenceError)%type.

(** ** The Go standard library, as far as the client calls it *)

Record Runtime (Value : Type) : Type := mkRuntime {
  (** [json.Marshal(req.Params)] *)
  json_Marshal : gmap string Value → result (list byte);
  (** [json.Unmarshal(body, &rawData)] for [rawData] an [interface{}]:
      the decoded value, [None] for the JSON text null *)
  json_Unmarshal : list byte → result (option Value);
  (** [json.Unmarshal(body, &errorResp)] *)
  json_Unmarshal_errorResp : list byte → result errorResp;
  (** what [http.NewRequestWithContext] says of a method and a URL: [None]
      when it accepts them *)
  http_NewRequest_error : string → string → option goerror;
  (** encoding/json rejects the empty input *)
  json_Unmarshal_empty : ∃ e, json_Unmarshal [] = Err e
}.
Arguments mkRuntime {Value} _ _ _ _ _.
Arguments json_Marshal {Value} _ _.
Arguments json_Unmarshal {Value} _ _.
Arguments json_Unmarshal_errorResp {Value} _ _.
Arguments http_NewRequest_error {Value} _ _ _.
Arguments json_Unmarshal_empty {Value} _.

(** [http.NewRequestWithContext(ctx, method, url, bytes.NewBuffer(body))];
    the context is attached to the request and not inspected here. *)
Definition http_NewRequestWithContext {Value} (rt : Runtime Value)
    (method url : string) (body : list byte) : result HTTPRequest :=
  match http_NewRequest_error rt method url with
  | Some e => Err e
  | None => Ok (mkHTTPRequest method url ∅ body)
  end.

(** [validHeaderFieldByte] of net/textproto: the letters, the digits and
    the other characters of a token. *)
Definition validHeaderFieldByte (c : Ascii.ascii) : bool :=
  let n := Ascii.nat_of_ascii c in
  ((97 <=? n) && (n <=? 122))%nat || ((65 <=? n) && (n <=? 90))%nat
  || ((48 <=? n) && (n <=? 57))%nat
  || existsb (Ascii.eqb c) (String.list_ascii_of_string "!#$%&'*+-.^_`|~").

(** The loop of [canonicalMIMEHeaderKey]: upper case for the first letter
    and for a letter after a hyphen, lower case for the other letters. *)
Fixpoint canonicalMIMEHeaderKey (upper : bool) (a : string) : string :=
  match a with
  | EmptyString => EmptyString
  | String c a =>
      let n := Ascii.nat_of_ascii c in
      let c :=
        if upper && ((97 <=? n) && (n <=? 122))%nat
        then Ascii.ascii_of_nat (n - 32)
        else if negb upper && ((65 <=? n) && (n <=? 90))%nat
        then Ascii.ascii_of_nat (n + 32)
        else c in
      String c (canonicalMIMEHeaderKey (Ascii.eqb c "-"%char) a)
  end.

(** [textproto.CanonicalMIMEHeaderKey]: a key with a byte that is not
    valid in a field name is returned as it is. *)
Definition CanonicalMIMEHeaderKey (s : string) : string :=
  if forallb validHeaderFieldByte (String.list_ascii_of_string s)
  then canonicalMIMEHeaderKey true s
  else s.

(** [h.Set(key, value)] on an [http.Header]: the entry of the canonical
    form of the key is replaced by the one value. *)
Definition http_Header_Set (key value : string) (h : gmap string string)
    : gmap string string :=
  <[CanonicalMIMEHeaderKey key := value]> h.

(** [httpReq.Header.Set(key, value)] *)
Definition Header_Set (key value : string) (r : HTTPRequest) : HTTPRequest :=
  mkHTTPRequest (Method r) (URL r) (http_Header_Set key value (Header r))
    (Body r).

(** ** The environment *)

(** Everything the client cannot decide by itself, indexed by how many
    times it has been asked before. *)
Record World : Type := mkWorld {
  (** what the n-th [c.client.Do] answers to a request *)
  client_Do : nat → HTTPRequest → result HTTPResponse;
  (** what the n-th call of [ctx.Err()] returns; [None] is nil *)
  ctx_Err : nat → option ctxerr;
  (** whether, in the n-th [select], [ctx.Done()] fires before the timer *)
  ctx_Done_first : nat → bool;
  (** the duration [c.calculateBackoff(attempt)] comes up with in the n-th
      wait: [calculateBackoff_duration] on what [math.Pow] and
      [rand.Float64()] return then, or what the platform makes of a value
      that is out of range *)
  calculateBackoff : nat → Z → Z
}.

(** The effects of a call so far. *)
Record State : Type := mkState {
  (** how many times [generateOnce] has been entered *)
  attempts : nat;
  (** the requests given to [c.client.Do], oldest first *)
  sent : list HTTPRequest;
  (** how many times [ctx.Err()] has been called *)
  observed : nat;
  (** the waits entered, oldest first: attempt index and duration *)
  waits : list (Z * Z)
}.

(** State passing, for this client and for its sibling on resty. *)
Definition M (S A : Type) : Type := S → A * S.

#[global] Instance M_ret {S} : MRet (M S) := λ A a s, (a, s).
#[global] Instance M_bind {S} : MBind (M S) :=
  λ A B f m s, let '(a, s') := m s in f a s'.

Definition enter_attempt : M State unit :=
  λ s, (tt, mkState (S (attempts s)) (sent s) (observed s) (waits s)).

Definition Do (w : World) (r : HTTPRequest) : M State (result HTTPResponse) :=
  λ s, (client_Do w (length (sent s)) r,
        mkState (attempts s) (sent s ++ [r]) (observed s) (waits s)).

Definition ctx_Err_now (w : World) : M State (option ctxerr) :=
  λ s, (ctx_Err w (observed s),
        mkState (attempts s) (sent s) (S (observed s)) (waits s)).

(** [select] between [time.After(backoff)] and [ctx.Done()]: [true] when
    the context wins. *)
Definition select_Done (w : World) (attempt : Z) : M State bool :=
  λ s, let n := length (waits s) in
       (ctx_Done_first w n,
        mkState (attempts s) (sent s) (observed s)
                (waits s ++ [(attempt, calculateBackoff w n attempt)])).

(** ** The client on a bare [http.Client] *)

(** [determineEndpoint] *)
Definition determineEndpoint {Value} (params : gmap string Value) : string :=
  match params !! "messages" with
  | Some _ => "/v1/chat/completions"
  | None =>
      match params !! "prompt" with
      | Some _ => "/v1/completions"
      | None => "/v1/chat/completions"
      end
  end.

(** [handleErrorResponse] *)
Definition handleErrorResponse {Value} (rt : Runtime Value)
    (statusCode : Z) (body : list byte) : InferenceError :=
  let message :=
    match json_Unmarshal_errorResp rt body with
    | Ok errorResp =>
        if decide (Error_Message errorResp ≠ "") then Error_Message errorResp
        else String.string_of_list_byte body
    | Err _ => String.string_of_list_byte body
    end in
  let category := mapStatusCodeToCategory statusCode in
  mkInferenceError category
    ("HTTP " +:+ pretty statusCode +:+ ": " +:+ message)
    (Some (errors_New ("status code: " +:+ pretty statusCode +:+ ", body: "
                       +:+ String.string_of_list_byte body))).

Section Client.
Context {Value : Type}.
Variable rt : Runtime Value.
Variable w : World.
Variable c : HTTPInferenceClient.

(** [generateOnce]: one attempt. *)
Definition generateOnce (req : InferenceRequest Value)
    : M State (Outcome Value) :=
  _ ← enter_attempt;
  let endpoint := determineEndpoint (Params req) in
  match json_Marshal rt (Params req) with
  | Err err =>
      mret (None, Some (mkInferenceError ErrCategoryInvalidReq
              ("failed to marshal request: " +:+ Error err) (Some err)))
  | Ok requestBody =>
      let url := baseURL c +:+ endpoint in
      match http_NewRequestWithContext rt "POST" url requestBody with
      | Err err =>
          mret (None, Some (mkInferenceError ErrCategoryUnknown
                  ("failed to create HTTP request: " +:+ Error err)
                  (Some err)))
      | Ok httpReq =>
          let httpReq := Header_Set "Content-Type" "application/json" httpReq in
          let httpReq :=
            if decide (apiKey c ≠ "")
            then Header_Set "Authorization" ("Bearer " +:+ apiKey c) httpReq
            else httpReq in
          let httpReq :=
            if decide (RequestID req ≠ "")
            then Header_Set "X-Request-ID" (RequestID req) httpReq
            else httpReq in
          r ← Do w httpReq;
          match r with
          | Err err =>
              e1 ← ctx_Err_now w;
              if decide (e1 = Some Canceled) then
                mret (None, Some (mkInferenceError ErrCategoryUnknown
                        "request cancelled" (Some err)))
              else
                e2 ← ctx_Err_now w;
                if decide (e2 = Some DeadlineExceeded) then
                  mret (None, Some (mkInferenceError ErrCategoryServer
                          "request timeout" (Some err)))
                else
                  mret (None, Some (mkInferenceError ErrCategoryServer
                          ("failed to execute request: " +:+ Error err)
                          (Some err)))
          | Ok httpResp =>
              match ReadAll_Body httpResp with
              | Err err =>
                  mret (None, Some (mkInferenceError ErrCategoryServer
                          ("failed to read response body: " +:+ Error err)
                          (Some err)))
              | Ok responseBody =>
                  if decide (StatusCode httpResp ≠ 200) then
                    mret (None, Some (handleErrorResponse rt
                            (StatusCode httpResp) responseBody))
                  else
                    let rawData :=
                      match json_Unmarshal rt responseBody with
                      | Ok v => v
                      | Err _ => None
                      end in
                    mret (Some (mkInferenceResponse (RequestID req)
                                  responseBody rawData), None)
              end
          end
      end
  end.

(** The values [attempt] takes in
    [for attempt := 0; attempt <= MaxRetries; attempt++]. *)
Definition attemptRange (maxRetries : Z) : list Z :=
  Z.of_nat <$> seq 0 (Z.to_nat (maxRetries + 1)).

(** The retry loop of [Generate] over the attempts still to make.
    [inl] is a [return] from inside the loop; [inr] carries [lastErr] out
    of the loop, after a [break] or when the attempts are used up. *)
Fixpoint retryLoop (req : InferenceRequest Value) (todo : list Z)
    (lastErr : option InferenceError)
    : M State (Outcome Value + option InferenceError) :=
  match todo with
  | [] => mret (inr lastErr)
  | attempt :: todo =>
      '(resp, err) ← generateOnce req;
      match err with
      | None => mret (inl (resp, None))
      | Some e =>
          let lastErr := Some e in
          if negb (IsRetryable e) then mret (inl (None, Some e))
          else if attempt >=? MaxRetries (retryConfig c) then
            mret (inr lastErr)
          else
            ce ← ctx_Err_now w;
            if decide (ce ≠ None) then mret (inl (None, Some e))
            else
              cancelled ← select_Done w attempt;
              if cancelled : bool then
                ce ← ctx_Err_now w;
                mret (inl (None, Some (mkInferenceError ErrCategoryUnknown
                              "request cancelled during retry"
                              (ctxerr_error <$> ce))))
              else retryLoop req todo lastErr
      end
  end.

(** [Generate]; a nil request is [None]. *)
Definition Generate (req : option (InferenceRequest Value))
    : M State (Outcome Value) :=
  match req with
  | None =>
      mret (None, Some (mkInferenceError ErrCategoryInvalidReq
              "request cannot be nil" None))
  | Some req =>
      if decide (MaxRetries (retryConfig c) = 0) then generateOnce req
      else
        r ← retryLoop req (attemptRange (MaxRetries (retryConfig c))) None;
        match r with
        | inl out => mret out
        | inr lastErr => mret (None, lastErr)
        end
  end.

End Client.

(** ** The client on resty

    The sibling implementation hands the whole exchange, retries
    included, to [restyReq.Post]; [determineEndpoint],
    [handleErrorResponse] and [mapStatusCodeToCategory] are the same text
    in both files. *)
Module Resty.

(** What [Generate] puts into a [*resty.Request] before [Post]. *)
Record Request (Value : Type) : Type := mkRequest {
  Endpoint : string;
  Header : gmap string string;
  Body : gmap string Value
}.
Arguments mkRequest {Value} _ _ _.
Arguments Endpoint {Value} _.
Arguments Header {Value} _.
Arguments Body {Value} _.

(** A [*resty.Response]: [StatusCode()], [Body()] and
    [Request.Attempt]. *)
Record Response : Type := mkResponse {
  StatusCode : Z;
  RespBody : list byte;
  Attempt : Z
}.

Record World (Value : Type) : Type := mkWorld {
  (** what the n-th [restyReq.Post] returns *)
  Post : nat → Request Value → result Response;
  (** what the n-th call of [ctx.Err()] returns *)
  ctx_Err : nat → option ctxerr
}.
Arguments mkWorld {Value} _ _.
Arguments Post {Value} _ _ _.
Arguments ctx_Err {Value} _ _.

Record State (Value : Type) : Type := mkState {
  (** the requests posted, oldest first *)
  posted : list (Request Value);
  (** how many times [ctx.Err()] has been called *)
  observed : nat
}.
Arguments mkState {Value} _ _.
Arguments posted {Value} _.
Arguments observed {Value} _.

Section Client.
Context {Value : Type}.
Variable rt : Runtime Value.
Variable w : World Value.
Variable c : HTTPInferenceClient.

Definition Post_now (r : Request Value)
    : M (State Value) (result Response) :=
  λ s, (Post w (length (posted s)) r,
        mkState (posted s ++ [r]) (observed s)).

Definition ctx_Err_now : M (State Value) (option ctxerr) :=
  λ s, (ctx_Err w (observed s), mkState (posted s) (S (observed s))).

(** [handleRequestError] *)
Definition handleRequestError (err : goerror)
    (req : InferenceRequest Value)
    : M (State Value) (Outcome Value) :=
  e1 ← ctx_Err_now;
  if decide (e1 = Some Canceled) then
    mret (None, Some (mkInferenceError ErrCategoryUnknown
            "request cancelled" (Some err)))
  else
    e2 ← ctx_Err_now;
    if decide (e2 = Some DeadlineExceeded) then
      mret (None, Some (mkInferenceError ErrCategoryServer
              "request timeout" (Some err)))
    else
      mret (None, Some (mkInferenceError ErrCategoryServer
              ("failed to execute request: " +:+ Error err) (Some err))).

(** [Generate]; the client was built with the header [Content-Type], and
    [SetHeader] of resty is [Header.Set]. *)
Definition Generate (req : option (InferenceRequest Value))
    : M (State Value) (Outcome Value) :=
  match req with
  | None =>
      mret (None, Some (mkInferenceError ErrCategoryInvalidReq
              "request cannot be nil" None))
  | Some req =>
      let endpoint := determineEndpoint (Params req) in
      let header : gmap string string :=
        http_Header_Set "Content-Type" "application/json" ∅ in
      let header :=
        if decide (apiKey c ≠ "")
        then http_Header_Set "Authorization" ("Bearer " +:+ apiKey c) header
        else header in
      let header :=
        if decide (RequestID req ≠ "")
        then http_Header_Set "X-Request-ID" (RequestID req) header
        else header in
      r ← Post_now (mkRequest endpoint header (Params req));
      match r with
      | Err err => handleRequestError err req
      | Ok resp =>
          if decide (StatusCode resp ≠ 200) then
            mret (None, Some (handleErrorResponse rt (StatusCode resp)
                                (RespBody resp)))
          else
            let rawData :=
              if decide (0 < length (RespBody resp))%nat then
                match json_Unmarshal rt (RespBody resp) with
                | Ok v => v
                | Err _ => None
                end
              else None in
            mret (Some (mkInferenceResponse (RequestID req)
                          (RespBody resp) rawData), None)
      end
  end.

End Client.

End Resty.

(** ** Assumptions on the environment used by the statements *)

(** The execution context is never done: every [ctx.Err()] is nil and every
    wait ends with the timer. *)
Definition never_cancelled (w : World) : Prop :=
  (∀ n, ctx_Err w n = None) ∧ (∀ n, ctx_Done_first w n = false).

(** Whenever it is made, an attempt for [req] fails with an error of a
    retryable category. *)
Definition always_fails_retryably {Value} (rt : Runtime Value) (w : World)
    (c : HTTPInferenceClient) (req : InferenceRequest Value) : Prop :=
  ∀ s, ∃ e, (generateOnce rt w c req s).1 = (None, Some e)
            ∧ IsRetryable e = true.

(** ** A small concrete setting

    Dynamic values are JSON texts; the encoder writes an empty object for
    every map, and the decoder knows the empty object only. *)

Definition demo_runtime : Runtime string :=
  mkRuntime
    (λ _, Ok (String.list_byte_of_string "{}"))
    (λ b, match b with
          | [] => Err (errors_New "unexpected end of JSON input")
          | [x7b; x7d] => Ok (Some "{}")
          | _ => Err (errors_New "invalid character")
          end)
    (λ _, Err (errors_New "invalid character"))
    (λ _ _, None)
    (ex_intro _ (errors_New "unexpected end of JSON input") eq_refl).

(** The defaults of [NewHTTPInferenceClient] with [maxRetries] retries:
    one second, sixty seconds, the factor 2 and the jitter fraction 0.1. *)
Definition demo_client (maxRetries : Z) : HTTPInferenceClient :=
  mkHTTPInferenceClient "http://localhost:8000" ""
    (mkRetryConfig maxRetries 1000000000 60000000000
       (S754_finite false 4503599627370496 (-51))
       (S754_finite false 7205759403792794 (-56))).

Definition demo_request : InferenceRequest string :=
  mkInferenceRequest "req-1" "gpt-4" {[ "messages" := "[]" ]}.

(** A server that answers every request with the same status and body,
    under a context that always reports [ctx]. *)
Definition demo_server (status : Z) (body : string) (ctx : option ctxerr)
    : World :=
  mkWorld (λ _ _, Ok (mkHTTPResponse status
                        (Ok (String.list_byte_of_string body))))
          (λ _, ctx) (λ _, bool_decide (ctx ≠ None)) (λ _ _, 1000000000).

(** No server at all. *)
Definition demo_refused (ctx : option ctxerr) : World :=
  mkWorld (λ _ _, Err (errors_New "connection refused"))
          (λ _, ctx) (λ _, bool_decide (ctx ≠ None)) (λ _ _, 1000000000).

Definition demo_resty_refused (ctx : option ctxerr) : Resty.World string :=
  Resty.mkWorld (λ _ _, Err (errors_New "connection refused")) (λ _, ctx).

(** A server that answers 429 twice and then 200 with an empty object. *)
Definition demo_flaky : World :=
  mkWorld (λ n _, if (n <? 2)%nat
                  then Ok (mkHTTPResponse 429
                             (Ok (String.list_byte_of_string "slow down")))
                  else Ok (mkHTTPResponse 200
                             (Ok (String.list_byte_of_string "{}"))))
          (λ _, None) (λ _, false) (λ _ _, 10000000).

(** A server that always answers 429, and a caller who cancels during the
    first wait: [ctx.Err()] is nil before the wait and [Canceled] after. *)
Definition demo_cancel_in_wait : World :=
  mkWorld (λ _ _, Ok (mkHTTPResponse 429
                        (Ok (String.list_byte_of_string "slow down"))))
          (λ n, if (n <? 1)%nat then None else Some Canceled)
          (λ _, true) (λ _ _, 100000000).

(** A server that always answers 429, and a caller who cancels while the
    second attempt is under way: the first [ctx.Err()] is nil, the timer
    of the first wait fires, and the second [ctx.Err()] is [Canceled]. *)
Definition demo_cancel_in_second_attempt : World :=
  mkWorld (λ _ _, Ok (mkHTTPResponse 429
                        (Ok (String.list_byte_of_string "slow down"))))
          (λ n, if (n <? 1)%nat then None else Some Canceled)
          (λ _, false) (λ _ _, 100000000).

Definition fresh : State := mkState 0 [] 0 [].

(** What the client makes of the status 429 with the body [slow down]. *)
Definition demo_429_error : InferenceError :=
  mkInferenceError ErrCategoryRateLimit "HTTP 429: slow down"
    (Some (errors_New "status code: 429, body: slow down")).

Definition demo_400_error : InferenceError :=
  mkInferenceError ErrCategoryInvalidReq "HTTP 400: bad"
    (Some (errors_New "status code: 400, body: bad")).

Definition demo_503_error : InferenceError :=
  mkInferenceError ErrCategoryServer "HTTP 503: busy"
    (Some (errors_New "status code: 503, body: busy")).

Definition float64_largest_draw : spec_float :=
  S754_finite false 9007199254740991 (-53).



(** ** Construction of the clients *)

(** [time.Second] and [time.Minute], in nanoseconds. *)
Definition Second : Z := 1000000000.
Definition Minute : Z := 60 * Second.

(** [x == 0] on a float64: true of both zeros, false of every other value,
    NaN included. *)
Definition float64_is_zero (x : spec_float) : bool :=
  match x with
  | S754_zero _ => true
  | _ => false
  end.

(** [HTTPInferenceClientConfig] *)
Record HTTPInferenceClientConfig : Type := mkHTTPInferenceClientConfig {
  cfg_BaseURL : string;
  cfg_Timeout : Z;
  cfg_MaxIdleConns : Z;
  cfg_IdleConnTimeout : Z;
  cfg_APIKey : string;
  cfg_MaxRetries : Z;
  cfg_InitialBackoff : Z;
  cfg_MaxBackoff : Z;
  cfg_BackoffFactor : spec_float;
  cfg_JitterFraction : spec_float
}.

(** The fields of [http.Transport] and of [http.Client] that the
    constructors set. *)
Record http_Transport : Type := mkTransport {
  MaxIdleConns : Z;
  MaxIdleConnsPerHost : Z;
  IdleConnTimeout : Z
}.

Record http_Client : Type := mkClient {
  Timeout : Z;
  Transport : http_Transport
}.

(** The retry configuration both constructors compute from the
    configuration: the fields as given, and the defaults for the zero
    fields when [MaxRetries] is positive. *)
Definition retryConfig_of (config : HTTPInferenceClientConfig) : RetryConfig :=
  let retryConfig :=
    mkRetryConfig (cfg_MaxRetries config) (cfg_InitialBackoff config)
      (cfg_MaxBackoff config) (cfg_BackoffFactor config)
      (cfg_JitterFraction config) in
  if MaxRetries retryConfig >? 0 then
    mkRetryConfig (MaxRetries retryConfig)
      (if InitialBackoff retryConfig =? 0 then 1 * Second
       else InitialBackoff retryConfig)
      (if MaxBackoff retryConfig =? 0 then 60 * Second
       else MaxBackoff retryConfig)
      (if float64_is_zero (BackoffFactor retryConfig) then float64_2_0
       else BackoffFactor retryConfig)
      (if float64_is_zero (JitterFraction retryConfig) then float64_0_1
       else JitterFraction retryConfig)
  else retryConfig.

(** The transport both constructors build, after the defaults of the
    connection settings. *)
Definition transport_of (config : HTTPInferenceClientConfig) : http_Transport :=
  let maxIdleConns :=
    if cfg_MaxIdleConns config =? 0 then 100 else cfg_MaxIdleConns config in
  let idleConnTimeout :=
    if cfg_IdleConnTimeout config =? 0 then 90 * Second
    else cfg_IdleConnTimeout config in
  mkTransport maxIdleConns maxIdleConns idleConnTimeout.

Definition timeout_of (config : HTTPInferenceClientConfig) : Z :=
  if cfg_Timeout config =? 0 then 5 * Minute else cfg_Timeout config.

(** [NewHTTPInferenceClient]: the [*http.Client] it creates and the client
    that holds it. *)
Definition NewHTTPInferenceClient (config : HTTPInferenceClientConfig)
    : http_Client * HTTPInferenceClient :=
  (mkClient (timeout_of config) (transport_of config),
   mkHTTPInferenceClient (cfg_BaseURL config) (cfg_APIKey config)
     (retryConfig_of config)).

(** The request [generateOnce] builds from the marshalled parameters
    before it sends it. *)
Definition outgoing_request {Value} (c : HTTPInferenceClient)
    (req : InferenceRequest Value) (body : list byte) : HTTPRequest :=
  let httpReq :=
    mkHTTPRequest "POST" (baseURL c +:+ determineEndpoint (Params req)) ∅
      body in
  let httpReq := Header_Set "Content-Type" "application/json" httpReq in
  let httpReq :=
    if decide (apiKey c ≠ "")
    then Header_Set "Authorization" ("Bearer " +:+ apiKey c) httpReq
    else httpReq in
  if decide (RequestID req ≠ "")
  then Header_Set "X-Request-ID" (RequestID req) httpReq
  else httpReq.

(** The error of the [select] when the context is done first. *)
Definition cancelled_during_retry (ce : option ctxerr) : InferenceError :=
  mkInferenceError ErrCategoryUnknown "request cancelled during retry"
    (ctxerr_error <$> ce).

(** The retry condition that [NewHTTPInferenceClient] installs on the
    resty client: [r] is the response and [err] the error of an attempt,
    [None] for nil. *)
Definition retryCondition (r : Resty.Response) (err : option goerror) : bool :=
  match err with
  | Some _ => true
  | None =>
      let statusCode := Resty.StatusCode r in
      (statusCode =? 429) || (statusCode >=? 500)
  end.

(** An attempt for [req] from the state [s] reaches the network, and the
    environment answers [answer] to whatever is sent. *)
Definition answered {Value} (rt : Runtime Value) (w : World)
    (c : HTTPInferenceClient) (req : InferenceRequest Value) (s : State)
    (answer : result HTTPResponse) : Prop :=
  (∃ body, json_Marshal rt (Params req) = Ok body)
  ∧ http_NewRequest_error rt "POST"
      (baseURL c +:+ determineEndpoint (Params req)) = None
  ∧ ∀ r, client_Do w (length (sent s)) r = answer.

(** The state after one more call of [ctx.Err()]. *)
Definition observe_ctx (s : State) : State :=
  mkState (attempts s) (sent s) (S (observed s)) (waits s).

(** The state in which the next attempt starts when the attempt number
    [attempt] has left the state [s1], [ctx.Err()] was nil and the wait
    was entered and ended by the timer. *)
Definition after_wait (w : World) (attempt : nat) (s1 : State) : State :=
  mkState (attempts s1) (sent s1) (S (observed s1))
    (waits s1
     ++ [(Z.of_nat attempt,
          calculateBackoff w (length (waits s1)) (Z.of_nat attempt))]).

(** From the state [s] on, the [k] attempts number [first], [first + 1],
    ... for [req] fail one after the other with a retryable error, each
    under a context that is done neither before nor during the wait that
    follows; [s'] is the state in which the attempt after them starts. *)
Fixpoint retried {Value} (rt : Runtime Value) (w : World)
    (c : HTTPInferenceClient) (req : InferenceRequest Value) (k first : nat)
    (s s' : State) : Prop :=
  match k with
  | O => s' = s
  | S k =>
      let s1 := (generateOnce rt w c req s).2 in
      (∃ e, (generateOnce rt w c req s).1 = (None, Some e)
            ∧ IsRetryable e = true)
      ∧ ctx_Err w (observed s1) = None
      ∧ ctx_Done_first w (length (waits s1)) = false
      ∧ retried rt w c req k (S first) (after_wait w first s1) s'
  end.

(** ** More of the concrete setting *)

(** A runtime whose encoder rejects every map. *)
Definition demo_runtime_no_marshal : Runtime string :=
  mkRuntime
    (λ _, Err (errors_New "json: unsupported value"))
    (json_Unmarshal demo_runtime)
    (json_Unmarshal_errorResp demo_runtime)
    (λ _ _, None)
    (json_Unmarshal_empty demo_runtime).

(** A runtime that finds every URL malformed. *)
Definition demo_runtime_bad_url : Runtime string :=
  mkRuntime
    (json_Marshal demo_runtime)
    (json_Unmarshal demo_runtime)
    (json_Unmarshal_errorResp demo_runtime)
    (λ _ _, Some (errors_New "invalid URL"))
    (json_Unmarshal_empty demo_runtime).

(** A server whose answers break off before the body is complete. *)
Definition demo_unreadable (status : Z) : World :=
  mkWorld (λ _ _, Ok (mkHTTPResponse status (Err (errors_New "unexpected EOF"))))
          (λ _, None) (λ _, false) (λ _ _, 1000000000).

(** What resty sees of [demo_server]. *)
Definition demo_resty_server (status : Z) (body : string)
    (ctx : option ctxerr) : Resty.World string :=
  Resty.mkWorld
    (λ _ _, Ok (Resty.mkResponse status (String.list_byte_of_string body) 1))
    (λ _, ctx).

(** A configuration that asks for three retries and leaves the rest to
    the defaults. *)
Definition demo_config : HTTPInferenceClientConfig :=
  mkHTTPInferenceClientConfig "http://localhost:8000" 0 0 0 "" 3 0 0
    (S754_zero false) (S754_zero false).

(** ** The S3 files client

    [Client] of the package s3: the calls of the S3 API are answered by an
    oracle and logged; [time.Time] is a number, and an [io.Reader] is the
    bytes it delivers and how it ends. *)
Module S3.

(** An error of the S3 API, as far as [errors.As] tells errors apart. *)
Inductive apierr : Type :=
  | NotFound
  | NoSuchKey
  | Failure (msg : string).

(** [errors.As(err, &notFound)] for [notFound] a [*types.NotFound]. *)
Definition is_NotFound (err : apierr) : bool :=
  match err with
  | NotFound => true
  | _ => false
  end.

(** The errors the client returns: its two sentinels, [os.ErrNotExist],
    and [fmt.Errorf] around a cause. *)
Inductive error : Type :=
  | ErrFileTooLarge
  | ErrFileExists
  | os_ErrNotExist
  | Errorf_api (msg : string) (cause : apierr)
  | Errorf_read (msg : string) (cause : goerror).

(** The answer of a call of the API. *)
Inductive answer (A : Type) : Type :=
  | Done (a : A)
  | Failed (err : apierr).
Arguments Done {A} a.
Arguments Failed {A} err.

Record BatchFileMetadata : Type := mkBatchFileMetadata {
  Location : string;
  Size : Z;
  ModTime : Z
}.

Record Client : Type := mkClient {
  bucket : string;
  prefix : string;
  defaultTimeout : Z
}.

(** The calls made to the API, with their inputs. *)
Inductive Call : Type :=
  | CallHeadObject (Bucket Key : string)
  | CallPutObject (Bucket Key : string) (Body : list byte)
      (ContentLength : Z)
  | CallDeleteObject (Bucket Key : string).

(** What S3 and the clock answer to the n-th call. [HeadObject] yields
    [LastModified], which may be nil. *)
Record World : Type := mkWorld {
  HeadObject : nat → string → string → answer (option Z);
  PutObject : nat → string → string → list byte → answer unit;
  DeleteObject : nat → string → string → answer unit;
  time_Now : nat → Z
}.

(** An [io.Reader]: the bytes [data] it delivers before it stops, and why
    it stops: at the end of the input, or with the error [failure]. As
    the contract of [io.Reader] allows both, [failure_with_data] tells
    whether the error comes from the read that delivers the last byte of
    [data], or from a later read that delivers nothing. *)
Record Reader : Type := mkReader {
  data : list byte;
  failure : option goerror;
  failure_with_data : bool
}.

(** [io.ReadAll(io.LimitReader(reader, n))]. A limited reader asks for no
    more than what is left of [n] bytes, hands on what the reader returns,
    error included, and reports the end of the input once [n] bytes are
    read, and at once when [n] is not positive; [io.ReadAll] stops at the
    first error. So the error of the reader is seen when the reader stops
    before [n] bytes, and also when it stops at exactly [n] bytes and its
    error comes with the last of them. *)
Definition ReadAll_LimitReader (reader : Reader) (n : Z) : result (list byte) :=
  let size := Z.of_nat (length (data reader)) in
  if n <=? 0 then Ok []
  else if n <? size then Ok (take (Z.to_nat n) (data reader))
  else
    match failure reader with
    | None => Ok (data reader)
    | Some err =>
        if (n =? size) && negb (failure_with_data reader)
        then Ok (data reader)
        else Err err
    end.

(** The sum of two int64, which wraps around. *)
Definition int64_add (x y : Z) : Z :=
  (x + y + 2 ^ 63) mod 2 ^ 64 - 2 ^ 63.

Section Client.
Variable w : World.
Variable c : Client.

Definition headObject (key : string) : M (list Call) (answer (option Z)) :=
  λ calls, (HeadObject w (length calls) (bucket c) key,
            calls ++ [CallHeadObject (bucket c) key]).

Definition putObject (key : string) (content : list byte)
    : M (list Call) (answer unit) :=
  λ calls, (PutObject w (length calls) (bucket c) key content,
            calls ++ [CallPutObject (bucket c) key content
                        (Z.of_nat (length content))]).

Definition deleteObject (key : string) : M (list Call) (answer unit) :=
  λ calls, (DeleteObject w (length calls) (bucket c) key,
            calls ++ [CallDeleteObject (bucket c) key]).

Definition now : M (list Call) Z :=
  λ calls, (time_Now w (length calls), calls).

(** [resolveKey] *)
Definition resolveKey (location : string) : string :=
  if decide (prefix c = "") then location
  else prefix c +:+ "/" +:+ location.

(** [Store] *)
Definition Store (location : string) (fileSizeLimit : Z) (reader : Reader)
    : M (list Call) (option BatchFileMetadata * option error) :=
  let key := resolveKey location in
  r ← headObject key;
  match r with
  | Done _ => mret (None, Some ErrFileExists)
  | Failed err =>
      if negb (is_NotFound err) then
        mret (None, Some (Errorf_api "failed to check if object exists" err))
      else
        match ReadAll_LimitReader reader (int64_add fileSizeLimit 1) with
        | Err err =>
            mret (None, Some (Errorf_read "failed to read content" err))
        | Ok content =>
            if Z.of_nat (length content) >? fileSizeLimit then
              mret (None, Some ErrFileTooLarge)
            else
              p ← putObject key content;
              match p with
              | Failed err =>
                  mret (None, Some (Errorf_api "failed to upload object" err))
              | Done _ =>
                  h ← headObject key;
                  match h with
                  | Failed err =>
                      mret (None, Some (Errorf_api
                                          "failed to get object metadata" err))
                  | Done LastModified =>
                      modTime ← now;
                      let modTime :=
                        match LastModified with
                        | Some t => t
                        | None => modTime
                        end in
                      mret (Some (mkBatchFileMetadata key
                                    (Z.of_nat (length content)) modTime),
                            None)
                  end
              end
        end
  end.

(** [Delete]; [None] is the nil error. *)
Definition Delete (location : string) : M (list Call) (option error) :=
  let key := resolveKey location in
  r ← headObject key;
  match r with
  | Failed err =>
      if is_NotFound err then mret (Some os_ErrNotExist)
      else mret (Some (Errorf_api "failed to check if object exists" err))
  | Done _ =>
      d ← deleteObject key;
      match d with
      | Failed err => mret (Some (Errorf_api "failed to delete object" err))
      | Done _ => mret None
      end
  end.

End Client.

End S3.

(** An S3 client with a prefix, and a bucket that does not hold the
    object yet and accepts every call. *)
Definition demo_s3_client : S3.Client :=
  S3.mkClient "batch-files" "tenant-a" 30000000000.

Definition demo_s3_bucket : S3.World :=
  S3.mkWorld
    (λ n _ _, match n with
              | O => S3.Failed S3.NotFound
              | _ => S3.Done (Some 1700000000)
              end)
    (λ _ _ _ _, S3.Done tt)
    (λ _ _ _, S3.Done tt)
    (λ _, 1700000001).

Definition demo_s3_reader : S3.Reader :=
  S3.mkReader [x68; x69]%byte None false.

(** * Properties *)

Ltac unfold_M := unfold mbind, M_bind, mret, M_ret in *.

Section Properties.
Context {Value : Type}.
Variable rt : Runtime Value.
Variable w : World.
Variable c : HTTPInferenceClient.

(** ** One attempt *)

(** An attempt is counted once, never waits, and hands back either a
    response or an error. *)
Lemma generateOnce_effects (req : InferenceRequest Value) (s : State) :
  attempts (generateOnce rt w c req s).2 = S (attempts s)
  ∧ waits (generateOnce rt w c req s).2 = waits s
  ∧ ((∃ r, (generateOnce rt w c req s).1 = (Some r, None))
     ∨ (∃ e, (generateOnce rt w c req s).1 = (None, Some e))).
Proof.
  unfold generateOnce, enter_attempt, Do, ctx_Err_now. unfold_M.
  repeat (case_match; simpl in * ); simplify_eq; simpl; eauto 10.
Qed.

(** ** One turn of the loop *)

Lemma retryLoop_step (req : InferenceRequest Value) attempt todo lastErr s :
  retryLoop rt w c req (attempt :: todo) lastErr s =
  let '((resp, err), s1) := generateOnce rt w c req s in
  match err with
  | None => (inl (resp, None), s1)
  | Some e =>
      if negb (IsRetryable e) then (inl (None, Some e), s1)
      else if attempt >=? MaxRetries (retryConfig c) then (inr (Some e), s1)
      else
        let '(ce, s2) := ctx_Err_now w s1 in
        if decide (ce ≠ None) then (inl (None, Some e), s2)
        else
          let '(cancelled, s3) := select_Done w attempt s2 in
          if cancelled : bool then
            let '(ce, s4) := ctx_Err_now w s3 in
            (inl (None, Some (mkInferenceError ErrCategoryUnknown
                           "request cancelled during retry"
                           (ctxerr_error <$> ce))), s4)
          else retryLoop rt w c req todo (Some e) s3
  end.
Proof.
  cbn [retryLoop]. unfold_M.
  destruct (generateOnce rt w c req s) as [[resp [e|]] s1]; [|done].
  destruct (negb (IsRetryable e)); [done|].
  destruct (attempt >=? MaxRetries (retryConfig c)); [done|].
  destruct (ctx_Err_now w s1) as [ce s2].
  destruct (decide (ce ≠ None)); [done|].
  destruct (select_Done w attempt s2) as [[] s3]; [|done].
  by destruct (ctx_Err_now w s3).
Qed.

(** From attempt [k] on, with [m] retries left, the loop makes [m + 1]
    attempts and [m] waits and leaves through the [break]. *)
Lemma retryLoop_exhausts (req : InferenceRequest Value) :
  always_fails_retryably rt w c req → never_cancelled w →
  ∀ (m k : nat) lastErr s,
    Z.of_nat k + Z.of_nat m = MaxRetries (retryConfig c) →
    ∃ s_last e,
      (generateOnce rt w c req s_last).1 = (None, Some e)
      ∧ IsRetryable e = true
      ∧ retryLoop rt w c req (Z.of_nat <$> seq k (S m)) lastErr s
        = (inr (Some e), (generateOnce rt w c req s_last).2)
      ∧ attempts s_last = (attempts s + m)%nat
      ∧ length (waits s_last) = (length (waits s) + m)%nat.
Proof.
  intros Hfail [Hctx Hsel]. induction m as [|m IH]; intros k lastErr s Hk.
  - exists s. destruct (Hfail s) as (e & He & Hr). exists e.
    repeat split; [done..| |lia|lia].
    cbn [seq fmap list_fmap]. rewrite retryLoop_step.
    destruct (generateOnce rt w c req s) as [[resp err] s1].
    simpl in He. simplify_eq. rewrite Hr. simpl.
    destruct (Z.geb_spec (Z.of_nat k) (MaxRetries (retryConfig c)));
      [done|lia].
  - destruct (Hfail s) as (e & He & Hr).
    pose proof (generateOnce_effects req s) as (Ha & Hw & _).
    change (seq k (S (S m))) with (k :: seq (S k) (S m)).
    rewrite fmap_cons, retryLoop_step.
    destruct (generateOnce rt w c req s) as [[resp err] s1].
    simpl in He, Ha, Hw. simplify_eq. rewrite Hr. cbn [negb].
    destruct (Z.geb_spec (Z.of_nat k) (MaxRetries (retryConfig c))); [lia|].
    unfold ctx_Err_now, select_Done. rewrite Hctx. cbv beta iota zeta.
    destruct (decide _) as [?|_]; [done|].
    rewrite Hsel.
    edestruct (IH (S k) (Some e)) as (s_last & e' & H1 & H2 & H3 & H4 & H5);
      [lia|].
    exists s_last, e'. rewrite H3. repeat split; [done..| |].
    + rewrite H4. simpl. lia.
    + rewrite H5. simpl. rewrite length_app, Hw. simpl. lia.
Qed.

(** A first attempt that succeeds, or fails beyond retry, ends the call. *)
Lemma Generate_first_returns (req : InferenceRequest Value) s o s1 :
  0 ≤ MaxRetries (retryConfig c) →
  generateOnce rt w c req s = (o, s1) →
  (∃ r, o = (Some r, None))
  ∨ (∃ e, o = (None, Some e) ∧ IsRetryable e = false) →
  Generate rt w c (Some req) s = (o, s1).
Proof.
  intros Hmax Hgo Ho. unfold Generate.
  destruct (decide (MaxRetries (retryConfig c) = 0)) as [|Hne]; [done|].
  unfold attemptRange.
  replace (Z.to_nat (MaxRetries (retryConfig c) + 1))
    with (S (Z.to_nat (MaxRetries (retryConfig c)))) by lia.
  change (seq 0 (S ?n)) with (0%nat :: seq 1 n). rewrite fmap_cons.
  unfold mbind at 1. unfold M_bind at 1.
  rewrite retryLoop_step, Hgo.
  destruct Ho as [[r ->]|(e & -> & Hr)]; [done|].
  by rewrite Hr.
Qed.

(** Outside the domain of [RetryConfig]: with a negative [MaxRetries] the
    loop body never runs and [Generate] returns neither a response nor an
    error. *)
Remark Generate_negative_MaxRetries (req : InferenceRequest Value) s :
  MaxRetries (retryConfig c) < 0 →
  Generate rt w c (Some req) s = ((None, None), s).
Proof.
  intros Hneg. unfold Generate.
  destruct (decide (MaxRetries (retryConfig c) = 0)); [lia|].
  unfold attemptRange.
  by replace (Z.to_nat (MaxRetries (retryConfig c) + 1)) with 0%nat by lia.
Qed.

(** ** The retry loop *)

(** C1. With [MaxRetries = N > 0], when every attempt fails with an error
    of a retryable category and the context is never done, [Generate]
    makes exactly [N + 1] attempts ([N] waits between them) and returns,
    without a response, the error of the last attempt: the one made
    after [N] earlier attempts. *)
Theorem Generate_exhausts_retries (req : InferenceRequest Value) (N : Z) s :
  MaxRetries (retryConfig c) = N → 0 < N →
  always_fails_retryably rt w c req → never_cancelled w →
  ∃ s_last e,
    Z.of_nat (attempts s_last) = Z.of_nat (attempts s) + N
    ∧ (generateOnce rt w c req s_last).1 = (None, Some e)
    ∧ IsRetryable e = true
    ∧ Generate rt w c (Some req) s
      = ((None, Some e), (generateOnce rt w c req s_last).2)
    ∧ Z.of_nat (attempts (Generate rt w c (Some req) s).2)
      = Z.of_nat (attempts s) + N + 1
    ∧ Z.of_nat (length (waits (Generate rt w c (Some req) s).2))
      = Z.of_nat (length (waits s)) + N.
Proof.
  intros HN Hpos Hfail Hctx.
  destruct (retryLoop_exhausts req Hfail Hctx (Z.to_nat N) 0 None s)
    as (s_last & e & H1 & H2 & H3 & H4 & H5); [lia|].
  exists s_last, e.
  pose proof (generateOnce_effects req s_last) as (Ha & Hw & _).
  assert (Generate rt w c (Some req) s
          = ((None, Some e), (generateOnce rt w c req s_last).2)) as HG.
  { unfold Generate. rewrite HN. destruct (decide (N = 0)); [lia|].
    unfold attemptRange.
    replace (Z.to_nat (N + 1)) with (S (Z.to_nat N)) by lia.
    unfold_M. by rewrite H3. }
  rewrite HG. simpl. repeat split; [lia|done..| |].
  - rewrite Ha, H4. lia.
  - rewrite Hw, H5. lia.
Qed.

(** C2. When the first attempt fails with an error of category
    [InvalidRequest], [Auth] or [Unknown], [Generate] returns that error
    after this one attempt and without waiting, whatever the number of
    retries configured ([MaxRetries] is not negative, as section 3 of
    the specification requires of a [RetryConfig]). *)
Theorem Generate_stops_on_non_retryable (req : InferenceRequest Value)
    s e s1 :
  0 ≤ MaxRetries (retryConfig c) →
  generateOnce rt w c req s = ((None, Some e), s1) →
  Category e = ErrCategoryInvalidReq ∨ Category e = ErrCategoryAuth
    ∨ Category e = ErrCategoryUnknown →
  Generate rt w c (Some req) s = ((None, Some e), s1)
  ∧ attempts s1 = S (attempts s)
  ∧ waits s1 = waits s.
Proof.
  intros Hmax Hgo Hcat.
  pose proof (generateOnce_effects req s) as (Ha & Hw & _).
  rewrite Hgo in Ha, Hw. split; [|done].
  apply Generate_first_returns; [done..|]. right. exists e. split; [done|].
  unfold IsRetryable. by destruct Hcat as [->|[->| ->]].
Qed.

(** C7. With [MaxRetries = 0], [Generate] is one attempt: it returns what
    [generateOnce] returns, whatever that is, and never waits. *)
Theorem Generate_without_retry (req : InferenceRequest Value) s :
  MaxRetries (retryConfig c) = 0 →
  Generate rt w c (Some req) s = generateOnce rt w c req s
  ∧ attempts (Generate rt w c (Some req) s).2 = S (attempts s)
  ∧ waits (Generate rt w c (Some req) s).2 = waits s.
Proof.
  intros H0.
  assert (Generate rt w c (Some req) s = generateOnce rt w c req s) as ->.
  { unfold Generate. by destruct (decide _). }
  split; [done|]. pose proof (generateOnce_effects req s) as (Ha & Hw & _).
  done.
Qed.

(** ** Classification of an attempt *)

(** C6. When the request was built and sending it fails without a
    response, the category of the error follows what [ctx.Err()] says
    first: [Unknown], not retryable, for a cancelled context; [Server],
    retryable, for an expired deadline and for any other failure. The
    same holds of [handleRequestError] in the client on resty. *)
Theorem transport_failure_category (req : InferenceRequest Value) s
    (body : list byte) (err : goerror)
    (rw : Resty.World Value) (rs : Resty.State Value) :
  json_Marshal rt (Params req) = Ok body →
  http_NewRequest_error rt "POST"
    (baseURL c +:+ determineEndpoint (Params req)) = None →
  (∀ r, client_Do w (length (sent s)) r = Err err) →
  (∃ e, (generateOnce rt w c req s).1 = (None, Some e)
        ∧ RawError e = Some err
        ∧ match ctx_Err w (observed s) with
          | Some Canceled =>
              Category e = ErrCategoryUnknown ∧ IsRetryable e = false
          | Some DeadlineExceeded =>
              Category e = ErrCategoryServer ∧ IsRetryable e = true
          | None =>
              Category e = ErrCategoryServer ∧ IsRetryable e = true
          end)
  ∧ (∃ e, (Resty.handleRequestError rw err req rs).1 = (None, Some e)
          ∧ RawError e = Some err
          ∧ match Resty.ctx_Err rw (Resty.observed rs) with
            | Some Canceled =>
                Category e = ErrCategoryUnknown ∧ IsRetryable e = false
            | Some DeadlineExceeded =>
                Category e = ErrCategoryServer ∧ IsRetryable e = true
            | None =>
                Category e = ErrCategoryServer ∧ IsRetryable e = true
            end).
Proof.
  intros Hm Hn Hdo. split.
  - unfold generateOnce, enter_attempt, http_NewRequestWithContext, Do,
      ctx_Err_now.
    unfold_M. rewrite Hm, Hn. cbv beta iota zeta. cbn [sent observed].
    rewrite Hdo. cbn [observed].
    destruct (ctx_Err w (observed s)) as [[]|];
      repeat (case_decide; try done); simpl; eauto.
  - unfold Resty.handleRequestError, Resty.ctx_Err_now. unfold_M.
    cbv beta iota zeta.
    destruct (Resty.ctx_Err rw (Resty.observed rs)) as [[]|];
      repeat (case_decide; try done); simpl; eauto.
Qed.

(** C9. When an attempt is answered with status 200 and a body that is
    empty or that [json.Unmarshal] rejects, [generateOnce] returns a
    response and no error; the response carries the body as read and a
    nil [RawData]. [Generate] then returns the same. *)
Theorem generateOnce_ok_body_not_json (req : InferenceRequest Value) s
    (body raw : list byte) :
  json_Marshal rt (Params req) = Ok body →
  http_NewRequest_error rt "POST"
    (baseURL c +:+ determineEndpoint (Params req)) = None →
  (∀ r, client_Do w (length (sent s)) r
        = Ok (mkHTTPResponse 200 (Ok raw))) →
  raw = [] ∨ (∃ e, json_Unmarshal rt raw = Err e) →
  (generateOnce rt w c req s).1
  = (Some (mkInferenceResponse (RequestID req) raw None), None)
  ∧ (0 ≤ MaxRetries (retryConfig c) →
     (Generate rt w c (Some req) s).1
     = (Some (mkInferenceResponse (RequestID req) raw None), None)).
Proof.
  intros Hm Hn Hdo Hraw.
  assert (∃ e, json_Unmarshal rt raw = Err e) as [e He].
  { destruct Hraw as [->|?]; [apply json_Unmarshal_empty|done]. }
  assert ((generateOnce rt w c req s).1
          = (Some (mkInferenceResponse (RequestID req) raw None), None))
    as H1.
  { unfold generateOnce, enter_attempt, http_NewRequestWithContext, Do.
    unfold_M. rewrite Hm, Hn. cbv beta iota zeta. cbn [sent].
    rewrite Hdo. cbn [ReadAll_Body StatusCode].
    destruct (decide (200 ≠ 200)); [done|]. by rewrite He. }
  split; [done|]. intros Hmax.
  destruct (generateOnce rt w c req s) as [o s1] eqn:Hgo.
  simpl in H1. subst o.
  erewrite Generate_first_returns; [done..|]. left. eauto.
Qed.

(** C10. For a nil request, both clients return no response and the
    error [request cannot be nil] of category [InvalidRequest], which is
    not retryable; the state is untouched: no attempt, nothing sent, no
    look at the context, no wait. *)
Theorem Generate_nil_request s (rw : Resty.World Value)
    (rs : Resty.State Value) :
  let e := mkInferenceError ErrCategoryInvalidReq
             "request cannot be nil" None in
  Generate rt w c None s = ((None, Some e), s)
  ∧ Resty.Generate rt rw c None rs = ((None, Some e), rs)
  ∧ Category e = ErrCategoryInvalidReq
  ∧ IsRetryable e = false.
Proof. done. Qed.

End Properties.

(** ** Pure helpers *)

(** C8. [determineEndpoint] looks for [messages] first and for [prompt]
    second: a map with [messages] goes to the chat path, whether or not it
    has [prompt]; a map without [messages] and with [prompt] goes to the
    completion path; any other map goes to the chat path. *)
Theorem determineEndpoint_rule {Value} (params : gmap string Value) :
  (is_Some (params !! "messages") →
   determineEndpoint params = "/v1/chat/completions")
  ∧ (params !! "messages" = None → is_Some (params !! "prompt") →
     determineEndpoint params = "/v1/completions")
  ∧ (params !! "messages" = None → params !! "prompt" = None →
     determineEndpoint params = "/v1/chat/completions").
Proof.
  unfold determineEndpoint. repeat split.
  - by intros [v ->].
  - by intros -> [v ->].
  - by intros -> ->.
Qed.

(** C5. [mapStatusCodeToCategory] sends 400 to [InvalidRequest], 401 and
    403 to [Auth], 429 to [RateLimit], every code from 500 on to [Server]
    and every other code to [Unknown]; an error is retryable exactly when
    its category is [RateLimit] or [Server]. *)
Theorem mapStatusCodeToCategory_table (n : Z) :
  (n = 400 → mapStatusCodeToCategory n = ErrCategoryInvalidReq)
  ∧ (n = 401 ∨ n = 403 → mapStatusCodeToCategory n = ErrCategoryAuth)
  ∧ (n = 429 → mapStatusCodeToCategory n = ErrCategoryRateLimit)
  ∧ (500 ≤ n → mapStatusCodeToCategory n = ErrCategoryServer)
  ∧ (n ≠ 400 → n ≠ 401 → n ≠ 403 → n ≠ 429 → n < 500 →
     mapStatusCodeToCategory n = ErrCategoryUnknown)
  ∧ (∀ e, IsRetryable e = true
          ↔ Category e = ErrCategoryRateLimit ∨ Category e = ErrCategoryServer).
Proof.
  unfold mapStatusCodeToCategory.
  split; [by intros ->|].
  split; [by intros [->| ->]|].
  split; [by intros ->|].
  split.
  { intros Hn.
    repeat (match goal with
            | |- context [Z.eqb ?a ?b] => destruct (Z.eqb_spec a b)
            end; cbn [orb]; try lia; try done).
    destruct (Z.geb_spec n 500); [done|lia]. }
  split.
  { intros H400 H401 H403 H429 Hn.
    repeat (match goal with
            | |- context [Z.eqb ?a ?b] => destruct (Z.eqb_spec a b)
            end; cbn [orb]; try lia).
    destruct (Z.geb_spec n 500); [lia|done]. }
  intros e. unfold IsRetryable. destruct (Category e); split; intros He;
    try done; try (by left); try (by right); by destruct He.
Qed.

(** * The statements at concrete inputs *)

(** Two retries against a server that is always busy: three attempts, two
    waits, and the error of the third attempt. *)
Lemma Generate_exhausts_retries_witness :
  let w := demo_server 503 "busy" None in
  let c := demo_client 2 in
  MaxRetries (retryConfig c) = 2
  ∧ 0 < 2
  ∧ always_fails_retryably demo_runtime w c demo_request
  ∧ never_cancelled w
  ∧ ∃ s_last e,
      Z.of_nat (attempts s_last) = Z.of_nat (attempts fresh) + 2
      ∧ (generateOnce demo_runtime w c demo_request s_last).1 = (None, Some e)
      ∧ IsRetryable e = true
      ∧ Generate demo_runtime w c (Some demo_request) fresh
        = ((None, Some e), (generateOnce demo_runtime w c demo_request s_last).2)
      ∧ Z.of_nat (attempts (Generate demo_runtime w c (Some demo_request) fresh).2)
        = Z.of_nat (attempts fresh) + 2 + 1
      ∧ Z.of_nat (length (waits (Generate demo_runtime w c
                                   (Some demo_request) fresh).2))
        = Z.of_nat (length (waits fresh)) + 2.
Proof.
  intros w c.
  assert (always_fails_retryably demo_runtime w c demo_request) as Hfail.
  { intros s. exists demo_503_error. split; [vm_compute|]; reflexivity. }
  assert (never_cancelled w) as Hctx.
  { split; intros n; reflexivity. }
  split; [reflexivity|]. split; [lia|]. split; [exact Hfail|].
  split; [exact Hctx|].
  apply (Generate_exhausts_retries demo_runtime w c demo_request 2 fresh);
    [reflexivity|lia|exact Hfail|exact Hctx].
Defined.

(** Five retries configured, and a first answer 400: one attempt. *)
Lemma Generate_stops_on_non_retryable_witness :
  let w := demo_server 400 "bad" None in
  let c := demo_client 5 in
  let s1 := (generateOnce demo_runtime w c demo_request fresh).2 in
  0 ≤ MaxRetries (retryConfig c)
  ∧ generateOnce demo_runtime w c demo_request fresh
    = ((None, Some demo_400_error), s1)
  ∧ (Category demo_400_error = ErrCategoryInvalidReq
     ∨ Category demo_400_error = ErrCategoryAuth
     ∨ Category demo_400_error = ErrCategoryUnknown)
  ∧ Generate demo_runtime w c (Some demo_request) fresh
    = ((None, Some demo_400_error), s1)
  ∧ attempts s1 = S (attempts fresh)
  ∧ waits s1 = waits fresh.
Proof.
  intros w c s1.
  assert (generateOnce demo_runtime w c demo_request fresh
          = ((None, Some demo_400_error), s1)) as Hgo.
  { vm_compute. reflexivity. }
  split; [simpl; lia|]. split; [exact Hgo|]. split; [left; reflexivity|].
  apply (Generate_stops_on_non_retryable demo_runtime w c demo_request
           fresh demo_400_error s1);
    [simpl; lia|exact Hgo|left; reflexivity].
Defined.

(** C3 as stated fails. One retry is configured, the first attempt is
    answered 429, which is retryable, and the context is cancelled before
    the wait: [Generate] returns the error of that attempt, of category
    [RateLimit], and not an error of category [Unknown]. *)
Lemma Generate_context_done_not_Unknown :
  let w := demo_server 429 "slow down" (Some Canceled) in
  let c := demo_client 1 in
  (generateOnce demo_runtime w c demo_request fresh).1
  = (None, Some demo_429_error)
  ∧ IsRetryable demo_429_error = true
  ∧ ctx_Err w (observed (generateOnce demo_runtime w c demo_request fresh).2)
    = Some Canceled
  ∧ (Generate demo_runtime w c (Some demo_request) fresh).1
    = (None, Some demo_429_error)
  ∧ Category demo_429_error ≠ ErrCategoryUnknown
  ∧ waits (Generate demo_runtime w c (Some demo_request) fresh).2 = [].
Proof.
  intros w c. split; [vm_compute; reflexivity|]. split; [reflexivity|].
  split; [reflexivity|]. split; [vm_compute; reflexivity|].
  split; [discriminate|]. vm_compute. reflexivity.
Qed.

(** No retry configured and a busy server: the one attempt is the answer. *)
Lemma Generate_without_retry_witness :
  let w := demo_server 503 "busy" None in
  let c := demo_client 0 in
  MaxRetries (retryConfig c) = 0
  ∧ Generate demo_runtime w c (Some demo_request) fresh
    = generateOnce demo_runtime w c demo_request fresh
  ∧ attempts (Generate demo_runtime w c (Some demo_request) fresh).2
    = S (attempts fresh)
  ∧ waits (Generate demo_runtime w c (Some demo_request) fresh).2
    = waits fresh.
Proof.
  intros w c. split; [reflexivity|].
  apply (Generate_without_retry demo_runtime w c demo_request fresh).
  reflexivity.
Defined.

(** A refused connection under a live context, and the same under an
    expired one on resty. *)
Lemma transport_failure_category_witness :
  let w := demo_refused None in
  let rw := demo_resty_refused (Some DeadlineExceeded) in
  let c := demo_client 0 in
  let err := errors_New "connection refused" in
  let rs := Resty.mkState [] 0%nat in
  json_Marshal demo_runtime (Params demo_request)
  = Ok (String.list_byte_of_string "{}")
  ∧ http_NewRequest_error demo_runtime "POST"
      (baseURL c +:+ determineEndpoint (Params demo_request)) = None
  ∧ (∀ r, client_Do w (length (sent fresh)) r = Err err)
  ∧ (∃ e, (generateOnce demo_runtime w c demo_request fresh).1
          = (None, Some e)
          ∧ RawError e = Some err
          ∧ Category e = ErrCategoryServer ∧ IsRetryable e = true)
  ∧ (∃ e, (Resty.handleRequestError rw err demo_request rs).1
          = (None, Some e)
          ∧ RawError e = Some err
          ∧ Category e = ErrCategoryServer ∧ IsRetryable e = true).
Proof.
  intros w rw c err rs.
  split; [reflexivity|]. split; [reflexivity|]. split; [reflexivity|].
  apply (transport_failure_category demo_runtime w c demo_request fresh
           (String.list_byte_of_string "{}") err rw rs);
    reflexivity.
Defined.

(** The malformed body of the test suite, and the empty body. *)
Lemma generateOnce_ok_body_not_json_witness :
  let raw := String.list_byte_of_string "{invalid json" in
  let w := demo_server 200 "{invalid json" None in
  let c := demo_client 3 in
  json_Marshal demo_runtime (Params demo_request)
  = Ok (String.list_byte_of_string "{}")
  ∧ http_NewRequest_error demo_runtime "POST"
      (baseURL c +:+ determineEndpoint (Params demo_request)) = None
  ∧ (∀ r, client_Do w (length (sent fresh)) r
          = Ok (mkHTTPResponse 200 (Ok raw)))
  ∧ (raw = [] ∨ ∃ e, json_Unmarshal demo_runtime raw = Err e)
  ∧ (generateOnce demo_runtime w c demo_request fresh).1
    = (Some (mkInferenceResponse "req-1" raw None), None)
  ∧ (0 ≤ MaxRetries (retryConfig c) →
     (Generate demo_runtime w c (Some demo_request) fresh).1
     = (Some (mkInferenceResponse "req-1" raw None), None)).
Proof.
  intros raw w c.
  assert (raw = [] ∨ ∃ e, json_Unmarshal demo_runtime raw = Err e) as Hraw.
  { right. eexists. reflexivity. }
  split; [reflexivity|]. split; [reflexivity|]. split; [reflexivity|].
  split; [exact Hraw|].
  apply (generateOnce_ok_body_not_json demo_runtime w c demo_request fresh
           (String.list_byte_of_string "{}") raw);
    [reflexivity|reflexivity|reflexivity|exact Hraw].
Defined.

(** A request with both keys, one with [prompt] only, one with neither. *)
Lemma determineEndpoint_rule_witness :
  determineEndpoint ({[ "messages" := 1%nat; "prompt" := 2%nat ]}
                     : gmap string nat) = "/v1/chat/completions"
  ∧ determineEndpoint ({[ "prompt" := 2%nat ]} : gmap string nat)
    = "/v1/completions"
  ∧ determineEndpoint ({[ "model" := 3%nat ]} : gmap string nat)
    = "/v1/chat/completions".
Proof.
  split; [|split].
  - apply (proj1 (determineEndpoint_rule
             ({[ "messages" := 1%nat; "prompt" := 2%nat ]}
              : gmap string nat))).
    exists 1%nat. reflexivity.
  - apply (proj1 (proj2 (determineEndpoint_rule
             ({[ "prompt" := 2%nat ]} : gmap string nat)))).
    + reflexivity.
    + exists 2%nat. reflexivity.
  - apply (proj2 (proj2 (determineEndpoint_rule
             ({[ "model" := 3%nat ]} : gmap string nat))));
      reflexivity.
Defined.

(** The codes of the table, and two outside it. *)
Lemma mapStatusCodeToCategory_table_witness :
  mapStatusCodeToCategory 400 = ErrCategoryInvalidReq
  ∧ mapStatusCodeToCategory 403 = ErrCategoryAuth
  ∧ mapStatusCodeToCategory 429 = ErrCategoryRateLimit
  ∧ mapStatusCodeToCategory 599 = ErrCategoryServer
  ∧ mapStatusCodeToCategory 404 = ErrCategoryUnknown.
Proof.
  split; [apply (mapStatusCodeToCategory_table 400); reflexivity|].
  split; [apply (mapStatusCodeToCategory_table 403); right; reflexivity|].
  split; [apply (mapStatusCodeToCategory_table 429); reflexivity|].
  split; [apply (mapStatusCodeToCategory_table 599); lia|].
  apply (mapStatusCodeToCategory_table 404); lia.
Defined.

(** * Scenarios of the test suite *)

(** 429 on the first two attempts and 200 on the third, with three retries
    configured: three attempts, two waits, a response and no error. *)
Example scenario_succeeds_after_two_retries :
  let r := Generate demo_runtime demo_flaky (demo_client 3)
             (Some demo_request) fresh in
  r.1 = (Some (mkInferenceResponse "req-1"
                 (String.list_byte_of_string "{}") (Some "{}")), None)
  ∧ attempts r.2 = 3%nat
  ∧ waits r.2 = [(0, 10000000); (1, 10000000)].
Proof. vm_compute. done. Qed.

(** 503 on every attempt with two retries configured: three attempts and
    an error of category [Server]. *)
Example scenario_respects_max_retries :
  let r := Generate demo_runtime (demo_server 503 "busy" None) (demo_client 2)
             (Some demo_request) fresh in
  r.1 = (None, Some demo_503_error) ∧ attempts r.2 = 3%nat.
Proof. vm_compute. done. Qed.

(** 400 on the first attempt with five retries configured: one attempt. *)
Example scenario_bad_request_is_final :
  let r := Generate demo_runtime (demo_server 400 "bad" None) (demo_client 5)
             (Some demo_request) fresh in
  r.1 = (None, Some demo_400_error) ∧ attempts r.2 = 1%nat ∧ waits r.2 = [].
Proof. vm_compute. done. Qed.

(** A cancellation that arrives during the first wait: one attempt, and
    the error built by the [select]. *)
Example scenario_cancelled_during_wait :
  let r := Generate demo_runtime demo_cancel_in_wait (demo_client 10)
             (Some demo_request) fresh in
  r.1 = (None, Some (mkInferenceError ErrCategoryUnknown
                       "request cancelled during retry"
                       (Some (errors_New "context canceled"))))
  ∧ attempts r.2 = 1%nat
  ∧ waits r.2 = [(0, 100000000)].
Proof. vm_compute. done. Qed.

(** The canonical form of a header name: the three names the clients
    set, a name in lower case, and a name that is not a token. *)
Example scenario_canonical_header_keys :
  CanonicalMIMEHeaderKey "Content-Type" = "Content-Type"
  ∧ CanonicalMIMEHeaderKey "Authorization" = "Authorization"
  ∧ CanonicalMIMEHeaderKey "X-Request-ID" = "X-Request-Id"
  ∧ CanonicalMIMEHeaderKey "content-type" = "Content-Type"
  ∧ CanonicalMIMEHeaderKey "x request" = "x request".
Proof. repeat split. Qed.

(** The request that goes out: method, URL and headers. *)
Example scenario_request_sent :
  let r := Generate demo_runtime (demo_server 200 "{}" None)
             (mkHTTPInferenceClient "http://localhost:8000" "secret"
                (retryConfig (demo_client 0)))
             (Some demo_request) fresh in
  sent r.2
  = [mkHTTPRequest "POST" "http://localhost:8000/v1/chat/completions"
       (<["X-Request-Id" := "req-1"]>
          (<["Authorization" := "Bearer secret"]>
             {[ "Content-Type" := "application/json" ]}))
       (String.list_byte_of_string "{}")].
Proof. vm_compute. done. Qed.

(** * The backoff *)

(** ** Conversions between durations and float64 *)









(** ** The delay *)




(** With the largest int64 for both durations, the factor 1 and no
    jitter, the float64 to convert is 2^63, which no duration holds: Go
    leaves the delay to the platform. *)
Example calculateBackoff_out_of_range :
  let cfg := mkRetryConfig 1 (2 ^ 63 - 1) (2 ^ 63 - 1) float64_1 float64_0 in
  calculateBackoff_float64 (float64_of_int64 (InitialBackoff cfg))
    (float64_of_int64 (MaxBackoff cfg)) (JitterFraction cfg) float64_1
    float64_largest_draw
  = S754_finite false 4503599627370496 11
  ∧ calculateBackoff_duration cfg float64_1 float64_largest_draw = None.
Proof. split; vm_compute; reflexivity. Qed.


(** * Further properties of the clients *)

Section Attempt.
Context {Value : Type}.
Variable rt : Runtime Value.
Variable w : World.
Variable c : HTTPInferenceClient.

(** [generateOnce] as a function of what the runtime and the environment
    answer. *)
Lemma generateOnce_eq (req : InferenceRequest Value) (s : State) :
  generateOnce rt w c req s =
  let s0 := mkState (S (attempts s)) (sent s) (observed s) (waits s) in
  match json_Marshal rt (Params req) with
  | Err err =>
      ((None, Some (mkInferenceError ErrCategoryInvalidReq
                      ("failed to marshal request: " +:+ Error err)
                      (Some err))), s0)
  | Ok body =>
      match http_NewRequest_error rt "POST"
              (baseURL c +:+ determineEndpoint (Params req)) with
      | Some err =>
          ((None, Some (mkInferenceError ErrCategoryUnknown
                          ("failed to create HTTP request: " +:+ Error err)
                          (Some err))), s0)
      | None =>
          let httpReq := outgoing_request c req body in
          let s1 n := mkState (S (attempts s)) (sent s ++ [httpReq]) n
                        (waits s) in
          match client_Do w (length (sent s)) httpReq with
          | Err err =>
              if decide (ctx_Err w (observed s) = Some Canceled) then
                ((None, Some (mkInferenceError ErrCategoryUnknown
                                "request cancelled" (Some err))),
                 s1 (S (observed s)))
              else if decide (ctx_Err w (S (observed s))
                              = Some DeadlineExceeded) then
                ((None, Some (mkInferenceError ErrCategoryServer
                                "request timeout" (Some err))),
                 s1 (S (S (observed s))))
              else
                ((None, Some (mkInferenceError ErrCategoryServer
                                ("failed to execute request: " +:+ Error err)
                                (Some err))),
                 s1 (S (S (observed s))))
          | Ok httpResp =>
              match ReadAll_Body httpResp with
              | Err err =>
                  ((None, Some (mkInferenceError ErrCategoryServer
                                  ("failed to read response body: "
                                   +:+ Error err) (Some err))),
                   s1 (observed s))
              | Ok responseBody =>
                  if decide (StatusCode httpResp ≠ 200) then
                    ((None, Some (handleErrorResponse rt
                                    (StatusCode httpResp) responseBody)),
                     s1 (observed s))
                  else
                    ((Some (mkInferenceResponse (RequestID req) responseBody
                              match json_Unmarshal rt responseBody with
                              | Ok v => v
                              | Err _ => None
                              end), None),
                     s1 (observed s))
              end
          end
      end
  end.
Proof.
  unfold generateOnce, enter_attempt, http_NewRequestWithContext, Do,
    ctx_Err_now, outgoing_request.
  unfold_M. cbv beta iota zeta.
  destruct (json_Marshal rt (Params req)) as [body|err]; [|done].
  destruct (http_NewRequest_error rt "POST" _) as [err|]; [done|].
  cbn [sent attempts observed waits].
  destruct (client_Do w (length (sent s)) _) as [httpResp|err].
  - destruct (ReadAll_Body httpResp) as [responseBody|err]; [|done].
    by destruct (decide _).
  - cbn [sent attempts observed waits]. destruct (decide _); [done|].
    by destruct (decide _).
Qed.

(** ** Failures before the network *)

(** X1. When [json.Marshal] rejects the parameters, the attempt fails with
    an error of category [InvalidRequest] that carries the cause; nothing
    is sent and the context is not consulted. [Generate] returns this
    error after that one attempt, whatever the number of retries. *)
Theorem generateOnce_marshal_failure (req : InferenceRequest Value) s err :
  json_Marshal rt (Params req) = Err err →
  let e := mkInferenceError ErrCategoryInvalidReq
             ("failed to marshal request: " +:+ Error err) (Some err) in
  let s' := mkState (S (attempts s)) (sent s) (observed s) (waits s) in
  generateOnce rt w c req s = ((None, Some e), s')
  ∧ IsRetryable e = false
  ∧ (0 ≤ MaxRetries (retryConfig c) →
     Generate rt w c (Some req) s = ((None, Some e), s')).
Proof.
  intros Hm e s'.
  assert (generateOnce rt w c req s = ((None, Some e), s')) as Hgo.
  { by rewrite generateOnce_eq, Hm. }
  split; [done|]. split; [done|]. intros Hmax.
  apply Generate_first_returns; [done..|]. right. by exists e.
Qed.

(** X2. When the parameters are marshalled and [http.NewRequestWithContext]
    rejects the URL, the attempt fails with an error of category
    [Unknown]; nothing is sent, and [Generate] does not retry. *)
Theorem generateOnce_request_construction_failure
    (req : InferenceRequest Value) s body err :
  json_Marshal rt (Params req) = Ok body →
  http_NewRequest_error rt "POST"
    (baseURL c +:+ determineEndpoint (Params req)) = Some err →
  let e := mkInferenceError ErrCategoryUnknown
             ("failed to create HTTP request: " +:+ Error err) (Some err) in
  let s' := mkState (S (attempts s)) (sent s) (observed s) (waits s) in
  generateOnce rt w c req s = ((None, Some e), s')
  ∧ IsRetryable e = false
  ∧ (0 ≤ MaxRetries (retryConfig c) →
     Generate rt w c (Some req) s = ((None, Some e), s')).
Proof.
  intros Hm Hn e s'.
  assert (generateOnce rt w c req s = ((None, Some e), s')) as Hgo.
  { by rewrite generateOnce_eq, Hm, Hn. }
  split; [done|]. split; [done|]. intros Hmax.
  apply Generate_first_returns; [done..|]. right. by exists e.
Qed.

(** ** The request on the wire *)

(** X3. An attempt sends nothing exactly when marshalling or building the
    request fails; otherwise it sends one request: a POST to the base URL
    followed by the endpoint, with the marshalled parameters as body, the
    header [Content-Type], the header [Authorization] exactly when an API
    key is configured, the request id exactly when there is one, and no
    other header. The id travels under the key [X-Request-Id], the
    canonical form in which [Header.Set] stores the name [X-Request-ID]
    of the source; the request has no entry under that name. *)
Theorem generateOnce_request_sent (req : InferenceRequest Value) s :
  let s' := (generateOnce rt w c req s).2 in
  (sent s' = sent s
   ∧ ((∃ err, json_Marshal rt (Params req) = Err err)
      ∨ (∃ err, http_NewRequest_error rt "POST"
                  (baseURL c +:+ determineEndpoint (Params req))
                = Some err)))
  ∨ (∃ r, sent s' = sent s ++ [r]
          ∧ Method r = "POST"
          ∧ URL r = baseURL c +:+ determineEndpoint (Params req)
          ∧ json_Marshal rt (Params req) = Ok (Body r)
          ∧ Header r !! "Content-Type" = Some "application/json"
          ∧ Header r !! "Authorization"
            = (if decide (apiKey c = "") then None
               else Some ("Bearer " +:+ apiKey c))
          ∧ Header r !! "X-Request-Id"
            = (if decide (RequestID req = "") then None
               else Some (RequestID req))
          ∧ Header r !! "X-Request-ID" = None
          ∧ ∀ k, is_Some (Header r !! k) →
                 k = "Content-Type" ∨ k = "Authorization"
                 ∨ k = "X-Request-Id").
Proof.
  intros s'. subst s'. rewrite generateOnce_eq. cbv zeta.
  destruct (json_Marshal rt (Params req)) as [body|err]; [|left; eauto].
  destruct (http_NewRequest_error rt "POST" _) as [err|] eqn:Hn;
    [left; eauto|].
  right. exists (outgoing_request c req body).
  split.
  { repeat case_match; done. }
  unfold outgoing_request, Header_Set, http_Header_Set.
  change (CanonicalMIMEHeaderKey "Content-Type") with "Content-Type".
  change (CanonicalMIMEHeaderKey "Authorization") with "Authorization".
  change (CanonicalMIMEHeaderKey "X-Request-ID") with "X-Request-Id".
  destruct (decide (apiKey c ≠ "")) as [Hk|Hk];
    destruct (decide (RequestID req ≠ "")) as [Hi|Hi];
    destruct (decide (apiKey c = "")); try done;
    destruct (decide (RequestID req = "")); try done;
    cbn [Method URL Header Body].
  all: split; [done|]; split; [done|]; split; [done|].
  all: split; [by simplify_map_eq|].
  all: split; [by simplify_map_eq|].
  all: split; [by simplify_map_eq|].
  all: split; [by simplify_map_eq|].
  all: intros k [v Hv].
  all: destruct (decide (k = "Content-Type")) as [->|?]; [by left|].
  all: destruct (decide (k = "Authorization")) as [->|?]; [by right; left|].
  all: destruct (decide (k = "X-Request-Id")) as [->|?]; [by right; right|].
  all: by simplify_map_eq.
Qed.

End Attempt.

Section Answers.
Context {Value : Type}.
Variable rt : Runtime Value.
Variable w : World.
Variable c : HTTPInferenceClient.

(** ** What the answer of the server becomes *)

(** X4. When the body of the response cannot be read, the attempt fails
    with an error of category [Server], which is retryable, whatever the
    status code of the response: the status is not looked at. *)
Theorem generateOnce_read_failure (req : InferenceRequest Value) s
    (statusCode : Z) err :
  answered rt w c req s (Ok (mkHTTPResponse statusCode (Err err))) →
  let e := mkInferenceError ErrCategoryServer
             ("failed to read response body: " +:+ Error err) (Some err) in
  (generateOnce rt w c req s).1 = (None, Some e)
  ∧ IsRetryable e = true.
Proof.
  intros ([body Hm] & Hn & Hdo) e. split; [|done].
  by rewrite generateOnce_eq, Hm, Hn; cbv zeta; rewrite Hdo.
Qed.

(** X5. Every answer whose status is not 200 and whose body can be read
    is an error, built by [handleErrorResponse] from the status and the
    body; it is retryable exactly for 429 and for the codes from 500 on.
    The other codes of success and the redirections are errors too, of
    category [Unknown]. *)
Theorem generateOnce_status_not_200 (req : InferenceRequest Value) s
    (statusCode : Z) (responseBody : list byte) :
  answered rt w c req s (Ok (mkHTTPResponse statusCode (Ok responseBody))) →
  statusCode ≠ 200 →
  let e := handleErrorResponse rt statusCode responseBody in
  (generateOnce rt w c req s).1 = (None, Some e)
  ∧ Category e = mapStatusCodeToCategory statusCode
  ∧ (IsRetryable e = true ↔ statusCode = 429 ∨ 500 ≤ statusCode)
  ∧ (statusCode < 400 → Category e = ErrCategoryUnknown).
Proof.
  intros ([body Hm] & Hn & Hdo) Hne e. split.
  { rewrite generateOnce_eq, Hm, Hn; cbv zeta; rewrite Hdo. cbn [ReadAll_Body StatusCode].
    by destruct (decide _). }
  split; [done|].
  subst e. unfold IsRetryable. cbn [handleErrorResponse Category].
  unfold mapStatusCodeToCategory.
  repeat match goal with
         | |- context [Z.eqb ?a ?b] => destruct (Z.eqb_spec a b)
         end;
    destruct (Z.geb_spec statusCode 500); cbn [orb];
    (split; [split; [intros ?; first [done|lia|by left|by right]
                    |intros [?|?]; first [done|lia]]
            |intros ?; first [done|lia]]).
Qed.

(** X6. An answer with status 200 whose body can be read is always a
    success: the response echoes the id of the request, carries the body
    as read, and its [RawData] is what [json.Unmarshal] decodes, or nil
    when the decoder fails. [Generate] returns it at once. *)
Theorem generateOnce_status_200 (req : InferenceRequest Value) s
    (responseBody : list byte) :
  answered rt w c req s (Ok (mkHTTPResponse 200 (Ok responseBody))) →
  ∃ resp,
    (generateOnce rt w c req s).1 = (Some resp, None)
    ∧ RespRequestID resp = RequestID req
    ∧ Response resp = responseBody
    ∧ (∀ v, json_Unmarshal rt responseBody = Ok v → RawData resp = v)
    ∧ (∀ err, json_Unmarshal rt responseBody = Err err →
              RawData resp = None)
    ∧ (0 ≤ MaxRetries (retryConfig c) →
       (Generate rt w c (Some req) s).1 = (Some resp, None)).
Proof.
  intros ([body Hm] & Hn & Hdo).
  eexists. split.
  { rewrite generateOnce_eq, Hm, Hn; cbv zeta; rewrite Hdo. cbn [ReadAll_Body StatusCode].
    destruct (decide (200 ≠ 200)); [done|]. reflexivity. }
  cbn [RespRequestID Response RawData].
  split; [done|]. split; [done|].
  split; [by intros v ->|]. split; [by intros err ->|].
  intros Hmax.
  destruct (generateOnce rt w c req s) as [o s1] eqn:Hgo.
  assert (o = (Some (mkInferenceResponse (RequestID req) responseBody
                       match json_Unmarshal rt responseBody with
                       | Ok v => v
                       | Err _ => None
                       end), None)) as ->.
  { rewrite generateOnce_eq, Hm, Hn in Hgo; cbv zeta in Hgo; rewrite Hdo in Hgo.
    cbn [ReadAll_Body StatusCode] in Hgo.
    destruct (decide (200 ≠ 200)); [done|]. by simplify_eq. }
  erewrite Generate_first_returns; [done..|]. left. eauto.
Qed.

(** ** A context that is done before the call *)

(** X7. When sending fails and [ctx.Err()] says [Canceled], [Generate]
    makes this one attempt and returns the error [request cancelled] of
    category [Unknown]: it does not wait and does not retry, whatever the
    number of retries. *)
Theorem Generate_context_cancelled (req : InferenceRequest Value) s err :
  0 ≤ MaxRetries (retryConfig c) →
  answered rt w c req s (Err err) →
  ctx_Err w (observed s) = Some Canceled →
  let e := mkInferenceError ErrCategoryUnknown "request cancelled"
             (Some err) in
  (Generate rt w c (Some req) s).1 = (None, Some e)
  ∧ attempts (Generate rt w c (Some req) s).2 = S (attempts s)
  ∧ waits (Generate rt w c (Some req) s).2 = waits s.
Proof.
  intros Hmax ([body Hm] & Hn & Hdo) Hctx e.
  destruct (generateOnce rt w c req s) as [o s1] eqn:Hgo.
  pose proof (generateOnce_effects rt w c req s) as (Ha & Hw & _).
  rewrite Hgo in Ha, Hw. cbn [snd] in Ha, Hw.
  assert (o = (None, Some e)) as ->.
  { rewrite generateOnce_eq, Hm, Hn in Hgo; cbv zeta in Hgo; rewrite Hdo, Hctx in Hgo.
    destruct (decide (Some Canceled = Some Canceled)); [|done].
    by simplify_eq. }
  rewrite (Generate_first_returns rt w c req s (None, Some e) s1);
    [done..|]. right. by exists e.
Qed.

(** X8. When sending fails and [ctx.Err()] says [DeadlineExceeded] from
    then on, [Generate] stops after this one attempt without waiting,
    whatever the number of retries; the error it returns is the error
    [request timeout] of the attempt, whose category [Server] is
    retryable. *)
Theorem Generate_deadline_exceeded (req : InferenceRequest Value) s err :
  0 ≤ MaxRetries (retryConfig c) →
  answered rt w c req s (Err err) →
  (∀ n, (observed s ≤ n)%nat → ctx_Err w n = Some DeadlineExceeded) →
  let e := mkInferenceError ErrCategoryServer "request timeout"
             (Some err) in
  (Generate rt w c (Some req) s).1 = (None, Some e)
  ∧ IsRetryable e = true
  ∧ attempts (Generate rt w c (Some req) s).2 = S (attempts s)
  ∧ waits (Generate rt w c (Some req) s).2 = waits s.
Proof.
  intros Hmax ([body Hm] & Hn & Hdo) Hctx e.
  pose proof (generateOnce_effects rt w c req s) as (Ha & Hw & _).
  assert (generateOnce rt w c req s
          = ((None, Some e),
             mkState (S (attempts s))
               (sent s ++ [outgoing_request c req body])
               (S (S (observed s))) (waits s))) as Hgo.
  { rewrite generateOnce_eq, Hm, Hn; cbv zeta; rewrite Hdo, !Hctx by lia.
    destruct (decide (Some DeadlineExceeded = Some Canceled)); [done|].
    by destruct (decide _). }
  rewrite Hgo in Ha, Hw. cbn [snd] in Ha, Hw.
  assert (Generate rt w c (Some req) s
          = ((None, Some e),
             if decide (MaxRetries (retryConfig c) = 0)
             then (generateOnce rt w c req s).2
             else mkState (S (attempts s))
                    (sent s ++ [outgoing_request c req body])
                    (S (S (S (observed s)))) (waits s))) as HG.
  { unfold Generate.
    destruct (decide (MaxRetries (retryConfig c) = 0)) as [H0|H0];
      [by rewrite Hgo|].
    unfold attemptRange.
    replace (Z.to_nat (MaxRetries (retryConfig c) + 1))
      with (S (Z.to_nat (MaxRetries (retryConfig c)))) by lia.
    change (seq 0 (S ?n)) with (0%nat :: seq 1 n). rewrite fmap_cons.
    change (Z.of_nat 0) with 0.
    unfold mbind at 1. unfold M_bind at 1.
    rewrite retryLoop_step, Hgo. subst e.
    cbn [IsRetryable Category negb].
    destruct (Z.geb_spec 0 (MaxRetries (retryConfig c))); [lia|].
    unfold ctx_Err_now. cbn [observed]. rewrite Hctx by lia.
    cbv beta iota zeta.
    destruct (decide _) as [_|Hne]; [reflexivity|by destruct Hne]. }
  rewrite HG. cbn [fst snd]. split; [done|]. split; [done|].
  destruct (decide _); [by rewrite Hgo|done].
Qed.

End Answers.

Section Loop.
Context {Value : Type}.
Variable rt : Runtime Value.
Variable w : World.
Variable c : HTTPInferenceClient.

(** ** What a call does to the state *)

(** An attempt sends at most one request, and sends one whenever it ends
    in a response or in a retryable error. *)
Lemma generateOnce_grows (req : InferenceRequest Value) (s : State) :
  let o := (generateOnce rt w c req s).1 in
  let s' := (generateOnce rt w c req s).2 in
  (sent s' = sent s ∨ ∃ r, sent s' = sent s ++ [r])
  ∧ (observed s ≤ observed s')%nat
  ∧ ((∃ r, o = (Some r, None)) ∨ (∃ e, o = (None, Some e)
                                         ∧ IsRetryable e = true) →
     ∃ r, sent s' = sent s ++ [r]).
Proof.
  rewrite generateOnce_eq. cbv zeta.
  repeat case_match; cbn [fst snd sent observed];
    (split; [eauto|]); (split; [lia|]);
    intros [[? ?]|(? & ? & ?)]; simplify_eq; eauto.
Qed.

(** The effects of the loop, counted. *)
Lemma retryLoop_bounds (req : InferenceRequest Value) todo :
  ∀ lastErr s,
    let s' := (retryLoop rt w c req todo lastErr s).2 in
    ∃ a n k : nat,
      attempts s' = (attempts s + a)%nat
      ∧ length (sent s') = (length (sent s) + n)%nat
      ∧ length (waits s') = (length (waits s) + k)%nat
      ∧ sent s `prefix_of` sent s'
      ∧ waits s `prefix_of` waits s'
      ∧ (a ≤ length todo)%nat
      ∧ (todo ≠ [] → 1 ≤ a)%nat
      ∧ (n ≤ a)%nat ∧ (k ≤ a)%nat ∧ (a ≤ k + 1)%nat
      ∧ ((∀ x, last todo = Some x → MaxRetries (retryConfig c) ≤ x) →
         todo ≠ [] → (k < length todo)%nat).
Proof.
  induction todo as [|attempt todo IH]; intros lastErr s s'.
  { exists 0%nat, 0%nat, 0%nat. subst s'. cbn.
    repeat split; try done; lia. }
  subst s'. rewrite retryLoop_step.
  pose proof (generateOnce_effects rt w c req s) as (Ha & Hw & _).
  pose proof (generateOnce_grows req s) as (Hs & _ & _).
  destruct (generateOnce rt w c req s) as [[resp err] s1].
  cbn [fst snd] in Ha, Hw, Hs.
  assert (∃ n1 : nat, (n1 ≤ 1)%nat
            ∧ length (sent s1) = (length (sent s) + n1)%nat
            ∧ sent s `prefix_of` sent s1) as (n1 & Hn1 & Hlen & Hpre).
  { destruct Hs as [->|[r ->]].
    - exists 0%nat. split; [lia|]. split; [lia|done].
    - exists 1%nat. rewrite length_app. cbn. split; [lia|].
      split; [lia|]. by apply prefix_app_r. }
  assert (∀ o1, ∃ a n k : nat,
            attempts (mkState (attempts s1) (sent s1) o1 (waits s1))
            = (attempts s + a)%nat
            ∧ length (sent (mkState (attempts s1) (sent s1) o1 (waits s1)))
              = (length (sent s) + n)%nat
            ∧ length (waits (mkState (attempts s1) (sent s1) o1 (waits s1)))
              = (length (waits s) + k)%nat
            ∧ sent s `prefix_of`
                sent (mkState (attempts s1) (sent s1) o1 (waits s1))
            ∧ waits s `prefix_of`
                waits (mkState (attempts s1) (sent s1) o1 (waits s1))
            ∧ (a ≤ length (attempt :: todo))%nat
            ∧ (attempt :: todo ≠ [] → 1 ≤ a)%nat
            ∧ (n ≤ a)%nat ∧ (k ≤ a)%nat ∧ (a ≤ k + 1)%nat
            ∧ ((∀ x, last (attempt :: todo) = Some x →
                     MaxRetries (retryConfig c) ≤ x) →
               attempt :: todo ≠ [] → (k < length (attempt :: todo))%nat))
    as Hone.
  { intros o1. exists 1%nat, n1, 0%nat. cbn [attempts sent waits length].
    rewrite Hw. repeat split; try done; lia. }
  assert (s1 = mkState (attempts s1) (sent s1) (observed s1) (waits s1))
    as Hs1 by by destruct s1.
  destruct err as [e|]; [|rewrite Hs1; apply Hone].
  destruct (negb (IsRetryable e)); [rewrite Hs1; apply Hone|].
  destruct (Z.geb_spec attempt (MaxRetries (retryConfig c))) as [Hge|Hlt];
    [rewrite Hs1; apply Hone|].
  unfold ctx_Err_now. cbv beta iota zeta.
  destruct (decide _); [apply Hone|].
  unfold select_Done. cbv beta iota zeta. cbn [attempts sent observed waits].
  destruct (ctx_Done_first w (length (waits s1))).
  - exists 1%nat, n1, 1%nat. cbn [snd attempts sent waits length].
    rewrite length_app, Hw. cbn [length].
    repeat split; try done; try lia.
    + by apply prefix_app_r.
    + intros Hlast _. destruct todo as [|x todo]; [|cbn; lia].
      specialize (Hlast attempt eq_refl). lia.
  - match goal with
    | |- context [retryLoop rt w c req todo ?le ?s3] =>
        pose proof (IH le s3) as HIH; cbv zeta in HIH;
        destruct (retryLoop rt w c req todo le s3) as [r' s']
    end.
    destruct HIH
      as (a' & n' & k' & Ea & En & Ek & Ps & Pw & La & Na & Ln & Lk & Lak
          & Llast).
    cbn [fst snd attempts sent waits] in *.
    rewrite length_app, Hw in Ek. cbn [length] in Ek. rewrite Hw in Pw.
    exists (S a'), (n1 + n')%nat, (S k').
    split; [lia|]. split; [lia|]. split; [lia|].
    split; [by etrans|].
    split. { etrans; [|exact Pw]. by apply prefix_app_r. }
    cbn [length]. split; [lia|]. split; [lia|]. split; [lia|].
    split; [lia|]. split; [lia|].
    intros Hlast _. destruct todo as [|x todo].
    + specialize (Hlast attempt eq_refl). lia.
    + assert ((k' < length (x :: todo))%nat); [|lia].
      apply Llast; [|done]. intros y Hy. apply Hlast. by rewrite last_cons, Hy.
Qed.

(** X9. A call of [Generate] with a request only adds to what was sent and
    to the waits made. It makes at least one attempt and at most
    [MaxRetries + 1]; it sends at most one request per attempt; it waits
    at most [MaxRetries] times, only between attempts or after the last
    one it makes. *)
Theorem Generate_effects_bounded (req : InferenceRequest Value) s :
  0 ≤ MaxRetries (retryConfig c) →
  let s' := (Generate rt w c (Some req) s).2 in
  ∃ a n k : nat,
    attempts s' = (attempts s + a)%nat
    ∧ length (sent s') = (length (sent s) + n)%nat
    ∧ length (waits s') = (length (waits s) + k)%nat
    ∧ sent s `prefix_of` sent s'
    ∧ waits s `prefix_of` waits s'
    ∧ (1 ≤ a)%nat ∧ Z.of_nat a ≤ MaxRetries (retryConfig c) + 1
    ∧ (n ≤ a)%nat ∧ (k ≤ a)%nat ∧ (a ≤ k + 1)%nat
    ∧ Z.of_nat k ≤ MaxRetries (retryConfig c).
Proof.
  intros Hmax s'. subst s'. unfold Generate.
  destruct (decide (MaxRetries (retryConfig c) = 0)) as [H0|H0].
  - pose proof (generateOnce_effects rt w c req s) as (Ha & Hw & _).
    pose proof (generateOnce_grows req s) as (Hs & _ & _).
    cbv zeta in Hs.
    destruct Hs as [Hs|[r Hs]].
    + exists 1%nat, 0%nat, 0%nat. rewrite Ha, Hw, Hs.
      repeat split; try done; lia.
    + exists 1%nat, 1%nat, 0%nat. rewrite Ha, Hw, Hs, length_app. cbn.
      repeat split; try done; try lia. by apply prefix_app_r.
  - unfold_M.
    pose proof (retryLoop_bounds req
                  (attemptRange (MaxRetries (retryConfig c))) None s) as Hb.
    cbv zeta in Hb.
    destruct (retryLoop rt w c req _ None s) as [r s'].
    cbn [snd] in Hb.
    destruct Hb as (a & n & k & Ea & En & Ek & Ps & Pw & La & Na & Ln & Lk
                    & Lak & Llast).
    assert (length (attemptRange (MaxRetries (retryConfig c)))
            = S (Z.to_nat (MaxRetries (retryConfig c)))) as Hlen.
    { unfold attemptRange. rewrite length_fmap, length_seq. lia. }
    assert (attemptRange (MaxRetries (retryConfig c)) ≠ []) as Hnil.
    { intros E. by rewrite E in Hlen. }
    assert ((k < length (attemptRange (MaxRetries (retryConfig c))))%nat)
      as Hk.
    { apply Llast; [|done]. intros x. unfold attemptRange.
      replace (Z.to_nat (MaxRetries (retryConfig c) + 1))
        with (S (Z.to_nat (MaxRetries (retryConfig c)))) by lia.
      rewrite seq_S, fmap_app. cbn [fmap list_fmap]. rewrite last_snoc.
      intros [= <-]. cbn. lia. }
    exists a, n, k.
    assert (match r with
            | inl out => (out, s')
            | inr lastErr => ((None, lastErr), s')
            end.2 = s') as Hsnd by by destruct r.
    destruct r; cbn [snd];
      (repeat split; [done..| | | | | |]; try done; try lia; by apply Na).
Qed.

End Loop.

Section Result.
Context {Value : Type}.
Variable rt : Runtime Value.
Variable w : World.
Variable c : HTTPInferenceClient.

(** ** Where the result of a call comes from *)

(** What the loop hands back is what one of its attempts handed back, the
    last one it made, or the error of an interrupted wait. *)
Lemma retryLoop_result (req : InferenceRequest Value) todo :
  (∀ x, last todo = Some x → MaxRetries (retryConfig c) ≤ x) →
  ∀ lastErr s,
    let r := (retryLoop rt w c req todo lastErr s).1 in
    let s' := (retryLoop rt w c req todo lastErr s).2 in
    match r with
    | inl o =>
        (∃ s_a, (attempts s ≤ attempts s_a)%nat
                ∧ o = (generateOnce rt w c req s_a).1
                ∧ (s' = (generateOnce rt w c req s_a).2
                   ∨ s' = observe_ctx (generateOnce rt w c req s_a).2))
        ∨ (∃ ce, o = (None, Some (cancelled_during_retry ce)))
    | inr le =>
        (todo = [] ∧ le = lastErr ∧ s' = s)
        ∨ (∃ s_a, (attempts s ≤ attempts s_a)%nat
                  ∧ (None, le) = (generateOnce rt w c req s_a).1
                  ∧ s' = (generateOnce rt w c req s_a).2)
    end.
Proof.
  induction todo as [|attempt todo IH]; intros Hlast lastErr s; [by left|].
  cbv zeta. rewrite retryLoop_step.
  pose proof (generateOnce_effects rt w c req s) as (Ha & _ & Hex).
  destruct (generateOnce rt w c req s) as [[resp err] s1] eqn:Hgo.
  cbn [fst snd] in Ha, Hex.
  assert (∀ e, err = Some e → resp = None) as Hresp.
  { intros e ->. by destruct Hex as [[? ?]|[? ?]]; simplify_eq. }
  destruct err as [e|].
  - rewrite (Hresp e eq_refl) in Hgo.
    destruct (negb (IsRetryable e)).
    { left. exists s. rewrite Hgo. eauto. }
    destruct (Z.geb_spec attempt (MaxRetries (retryConfig c))) as [|Hlt].
    { right. exists s. rewrite Hgo. eauto. }
    assert (todo ≠ []) as Hnil.
    { intros ->. specialize (Hlast attempt eq_refl). lia. }
    assert (∀ x, last todo = Some x → MaxRetries (retryConfig c) ≤ x)
      as Hlast'.
    { intros x Hx. apply Hlast. destruct todo; [done|].
      by rewrite last_cons, Hx. }
    unfold ctx_Err_now. cbv beta iota zeta.
    destruct (decide _).
    { left. exists s. rewrite Hgo. split; [done|]. split; [done|]. by right. }
    unfold select_Done. cbv beta iota zeta.
    destruct (ctx_Done_first w _).
    { right. eauto. }
    match goal with
    | |- context [retryLoop rt w c req todo ?le ?s3] =>
        pose proof (IH Hlast' le s3) as HIH; cbv zeta in HIH;
        destruct (retryLoop rt w c req todo le s3) as [r' s']
    end.
    cbn [fst snd attempts] in *.
    destruct r' as [o|le].
    + destruct HIH as [(s_a & Hle & Ho & Hs)|?]; [|by right].
      left. exists s_a. split; [lia|done].
    + destruct HIH as [(? & _)|(s_a & Hle & Ho & Hs)]; [done|].
      right. exists s_a. split; [lia|done].
  - left. exists s. rewrite Hgo. eauto.
Qed.


Lemma attemptRange_last (N : Z) x :
  0 ≤ N → last (attemptRange N) = Some x → N ≤ x.
Proof.
  intros HN. unfold attemptRange.
  replace (Z.to_nat (N + 1)) with (S (Z.to_nat N)) by lia.
  rewrite seq_S, fmap_app. cbn [fmap list_fmap]. rewrite last_snoc.
  intros [= <-]. cbn. lia.
Qed.

Lemma attemptRange_cons (N : Z) :
  0 ≤ N →
  attemptRange N = 0 :: (Z.of_nat <$> seq 1 (Z.to_nat N)).
Proof.
  intros HN. unfold attemptRange.
  by replace (Z.to_nat (N + 1)) with (S (Z.to_nat N)) by lia.
Qed.

(** [Generate] on a request, when retries are configured, is the loop. *)
Lemma Generate_loop (req : InferenceRequest Value) s :
  MaxRetries (retryConfig c) ≠ 0 →
  Generate rt w c (Some req) s =
  match retryLoop rt w c req (attemptRange (MaxRetries (retryConfig c)))
          None s with
  | (inl out, s') => (out, s')
  | (inr lastErr, s') => ((None, lastErr), s')
  end.
Proof.
  intros H0. unfold Generate. destruct (decide _); [done|]. unfold_M.
  by destruct (retryLoop rt w c req _ None s) as [[?|?] ?].
Qed.

(** X10. For a configuration whose [MaxRetries] is not negative,
    [Generate] returns either a response and no error, or an error and no
    response, whatever the request (nil included) and the environment. *)
Theorem Generate_outcome_exclusive (req : option (InferenceRequest Value)) s :
  0 ≤ MaxRetries (retryConfig c) →
  (∃ resp, (Generate rt w c req s).1 = (Some resp, None))
  ∨ (∃ e, (Generate rt w c req s).1 = (None, Some e)).
Proof.
  intros Hmax. destruct req as [req|]; [|right; by eexists].
  destruct (decide (MaxRetries (retryConfig c) = 0)) as [H0|H0].
  { unfold Generate. destruct (decide _); [|done].
    by destruct (generateOnce_effects rt w c req s) as (_ & _ & H). }
  rewrite Generate_loop by done.
  pose proof (retryLoop_result req
                (attemptRange (MaxRetries (retryConfig c)))
                (λ x, attemptRange_last _ x Hmax) None s) as Hr.
  cbv zeta in Hr.
  destruct (retryLoop rt w c req _ None s) as [[o|le] s'];
    cbn [fst snd] in *.
  - destruct Hr as [(s_a & _ & -> & _)|[ce ->]]; [|right; by eexists].
    by destruct (generateOnce_effects rt w c req s_a) as (_ & _ & H).
  - destruct Hr as [(Hnil & _)|(s_a & _ & Ho & _)].
    { by rewrite attemptRange_cons in Hnil. }
    destruct (generateOnce_effects rt w c req s_a) as (_ & _ & [[r H]|[e H]]);
      rewrite H in Ho; simplify_eq. right. by eexists.
Qed.

(** X11. For a request, [Generate] returns what its last attempt returned,
    and it ends in the state that this attempt left, but for one more look
    at the context when it stops because the context is done; the only
    other result is the error of a wait that the context interrupted. *)
Theorem Generate_returns_last_attempt (req : InferenceRequest Value) s :
  0 ≤ MaxRetries (retryConfig c) →
  let o := (Generate rt w c (Some req) s).1 in
  let s' := (Generate rt w c (Some req) s).2 in
  (∃ s_a, (attempts s ≤ attempts s_a)%nat
          ∧ o = (generateOnce rt w c req s_a).1
          ∧ (s' = (generateOnce rt w c req s_a).2
             ∨ s' = observe_ctx (generateOnce rt w c req s_a).2))
  ∨ (∃ ce, o = (None, Some (cancelled_during_retry ce))).
Proof.
  intros Hmax. cbv zeta.
  destruct (decide (MaxRetries (retryConfig c) = 0)) as [H0|H0].
  { left. exists s. unfold Generate. destruct (decide _); [|done]. eauto. }
  rewrite Generate_loop by done.
  pose proof (retryLoop_result req
                (attemptRange (MaxRetries (retryConfig c)))
                (λ x, attemptRange_last _ x Hmax) None s) as Hr.
  cbv zeta in Hr.
  destruct (retryLoop rt w c req _ None s) as [[o|le] s'];
    cbn [fst snd] in *; [done|].
  destruct Hr as [(Hnil & _)|(s_a & Hle & Ho & Hs)].
  { by rewrite attemptRange_cons in Hnil. }
  left. exists s_a. eauto.
Qed.

(** ** Retryable errors come last *)

(** Under a context that is never done, the loop returns from inside only
    with a response or with an error that is not retryable, and it leaves
    through the [break] only after all the attempts. *)
Lemma retryLoop_never_cancelled (req : InferenceRequest Value) :
  never_cancelled w →
  ∀ (m k : nat) lastErr s,
    Z.of_nat k + Z.of_nat m = MaxRetries (retryConfig c) →
    let r := (retryLoop rt w c req (Z.of_nat <$> seq k (S m)) lastErr s).1 in
    let s' := (retryLoop rt w c req (Z.of_nat <$> seq k (S m)) lastErr s).2 in
    match r with
    | inl o =>
        (∃ resp, o = (Some resp, None))
        ∨ (∃ e, o = (None, Some e) ∧ IsRetryable e = false)
    | inr le =>
        (∃ e, le = Some e ∧ IsRetryable e = true)
        ∧ attempts s' = (attempts s + S m)%nat
        ∧ length (waits s') = (length (waits s) + m)%nat
    end.
Proof.
  intros [Hctx Hsel]. induction m as [|m IH]; intros k lastErr s Hk.
  - cbv zeta. cbn [seq fmap list_fmap]. rewrite retryLoop_step.
    pose proof (generateOnce_effects rt w c req s) as (Ha & Hw & Hex).
    destruct (generateOnce rt w c req s) as [[resp err] s1].
    cbn [fst snd] in *.
    destruct Hex as [[r Hr]|[e He]]; simplify_eq; [left; eauto|].
    destruct (IsRetryable e) eqn:Hret; cbn [negb]; [|right; eauto].
    destruct (Z.geb_spec (Z.of_nat k) (MaxRetries (retryConfig c))); [|lia].
    cbn [fst snd]. split; [eauto|]. rewrite Ha, Hw. lia.
  - cbv zeta. change (seq k (S (S m))) with (k :: seq (S k) (S m)).
    rewrite fmap_cons, retryLoop_step.
    pose proof (generateOnce_effects rt w c req s) as (Ha & Hw & Hex).
    destruct (generateOnce rt w c req s) as [[resp err] s1].
    cbn [fst snd] in *.
    destruct Hex as [[r Hr]|[e He]]; simplify_eq; [left; eauto|].
    destruct (IsRetryable e) eqn:Hret; cbn [negb]; [|right; eauto].
    destruct (Z.geb_spec (Z.of_nat k) (MaxRetries (retryConfig c))); [lia|].
    unfold ctx_Err_now, select_Done. rewrite Hctx. cbv beta iota zeta.
    destruct (decide _) as [?|_]; [done|]. rewrite Hsel.
    match goal with
    | |- context [retryLoop rt w c req _ ?le ?s3] =>
        pose proof (IH (S k) le s3) as HIH; cbv zeta in HIH;
        destruct (retryLoop rt w c req (Z.of_nat <$> seq (S k) (S m)) le s3)
          as [r' s']
    end.
    cbn [fst snd attempts waits] in *.
    destruct r' as [o|le]; [apply HIH; lia|].
    destruct HIH as (He & Ea & Ew); [lia|].
    split; [done|]. rewrite Ea, Ew, length_app, Ha, Hw. cbn. lia.
Qed.

(** X12. Under a context that is never done, an error that [Generate]
    returns is retryable only when the retries are used up: [Generate]
    then made [MaxRetries + 1] attempts and [MaxRetries] waits. *)
Theorem Generate_retryable_error_after_all_attempts
    (req : InferenceRequest Value) s e :
  0 ≤ MaxRetries (retryConfig c) →
  never_cancelled w →
  (Generate rt w c (Some req) s).1 = (None, Some e) →
  IsRetryable e = true →
  let s' := (Generate rt w c (Some req) s).2 in
  Z.of_nat (attempts s') = Z.of_nat (attempts s) + MaxRetries (retryConfig c) + 1
  ∧ Z.of_nat (length (waits s'))
    = Z.of_nat (length (waits s)) + MaxRetries (retryConfig c).
Proof.
  intros Hmax Hnc Hres Hret. cbv zeta.
  destruct (decide (MaxRetries (retryConfig c) = 0)) as [H0|H0].
  { pose proof (generateOnce_effects rt w c req s) as (Ha & Hw & _).
    unfold Generate. destruct (decide _); [|done]. rewrite Ha, Hw. lia. }
  rewrite Generate_loop in Hres |- * by done.
  rewrite attemptRange_cons in Hres |- * by done.
  assert (Z.to_nat (MaxRetries (retryConfig c))
          = S (Z.to_nat (MaxRetries (retryConfig c) - 1))) as Hm by lia.
  pose proof (retryLoop_never_cancelled req Hnc
                (Z.to_nat (MaxRetries (retryConfig c))) 0 None s) as Hr.
  cbv zeta in Hr. change (seq 0 (S ?n)) with (0%nat :: seq 1 n) in Hr.
  rewrite fmap_cons in Hr. change (Z.of_nat 0) with 0 in Hr.
  destruct (retryLoop rt w c req _ None s) as [[o|le] s'];
    cbn [fst snd] in *.
  - destruct Hr as [[resp ->]|(e' & -> & Hnr)]; [lia|done|].
    simplify_eq. congruence.
  - destruct Hr as (_ & Ea & Ew); lia.
Qed.

End Result.

Section Waits.
Context {Value : Type}.
Variable rt : Runtime Value.
Variable w : World.
Variable c : HTTPInferenceClient.

(** ** Waiting and retrying *)

(** X13. In the retry loop, when an attempt fails with a retryable error,
    retries remain, [ctx.Err()] is nil and the context is done before the
    timer of the wait fires, the loop returns the error
    [request cancelled during retry] of category [Unknown], not retryable,
    whose cause is what [ctx.Err()] says then; the wait is the last thing
    that happens. When the attempt is the first one, this is what
    [Generate] returns. *)
Theorem retryLoop_cancelled_during_wait (req : InferenceRequest Value)
    attempt todo lastErr s resp e s1 :
  generateOnce rt w c req s = ((resp, Some e), s1) →
  IsRetryable e = true →
  attempt < MaxRetries (retryConfig c) →
  ctx_Err w (observed s1) = None →
  ctx_Done_first w (length (waits s1)) = true →
  let e' := mkInferenceError ErrCategoryUnknown
              "request cancelled during retry"
              (ctxerr_error <$> ctx_Err w (S (observed s1))) in
  let s2 := mkState (attempts s1) (sent s1) (S (S (observed s1)))
              (waits s1
               ++ [(attempt, calculateBackoff w (length (waits s1)) attempt)])
  in
  retryLoop rt w c req (attempt :: todo) lastErr s = (inl (None, Some e'), s2)
  ∧ IsRetryable e' = false
  ∧ (attempt = 0 → Generate rt w c (Some req) s = ((None, Some e'), s2)).
Proof.
  intros Hgo Hr Hlt Hctx Hdone e' s2.
  assert (∀ todo' lastErr',
            retryLoop rt w c req (attempt :: todo') lastErr' s
            = (inl (None, Some e'), s2)) as Hloop.
  { intros todo' lastErr'. rewrite retryLoop_step, Hgo, Hr. cbn [negb].
    destruct (Z.geb_spec attempt (MaxRetries (retryConfig c))); [lia|].
    unfold ctx_Err_now, select_Done. rewrite Hctx. cbv beta iota zeta.
    destruct (decide _) as [?|_]; [done|].
    cbn [waits observed]. by rewrite Hdone. }
  split; [apply Hloop|]. split; [done|]. intros ->.
  rewrite Generate_loop by lia. rewrite attemptRange_cons by lia.
  by rewrite Hloop.
Qed.

(** The loop on a server that fails retryably [k] times and then
    answers. *)
Lemma retryLoop_succeeds_after (req : InferenceRequest Value) (n0 : nat) :
  never_cancelled w →
  ∀ (k i : nat) todo lastErr s,
    length (sent s) = (n0 + i)%nat →
    (∀ s', (length (sent s') < n0 + i + k)%nat →
           ∃ e, (generateOnce rt w c req s').1 = (None, Some e)
                ∧ IsRetryable e = true) →
    (∀ s', length (sent s') = (n0 + i + k)%nat →
           ∃ resp, (generateOnce rt w c req s').1 = (Some resp, None)) →
    (∀ j, (j < k)%nat → ∃ a, (Z.of_nat <$> todo) !! j = Some a
                             ∧ a < MaxRetries (retryConfig c)) →
    (k < length todo)%nat →
    ∃ s_last resp,
      length (sent s_last) = (n0 + i + k)%nat
      ∧ (generateOnce rt w c req s_last).1 = (Some resp, None)
      ∧ retryLoop rt w c req (Z.of_nat <$> todo) lastErr s
        = (inl (Some resp, None), (generateOnce rt w c req s_last).2)
      ∧ attempts s_last = (attempts s + k)%nat
      ∧ length (waits s_last) = (length (waits s) + k)%nat.
Proof.
  intros [Hctx Hsel]. induction k as [|k IH];
    intros i todo lastErr s Hlen Hfail Hok Hlt Hk.
  - destruct todo as [|a todo]; [cbn in Hk; lia|].
    destruct (Hok s) as [resp Hresp]; [lia|].
    exists s, resp. rewrite fmap_cons, retryLoop_step.
    destruct (generateOnce rt w c req s) as [[? ?] s1].
    cbn [fst snd] in *. simplify_eq.
    repeat split; [lia|lia|lia].
  - destruct todo as [|a todo]; [cbn in Hk; lia|].
    destruct (Hfail s) as (e & He & Hret); [lia|].
    destruct (Hlt 0%nat) as (a' & Ha' & Hlta); [lia|].
    rewrite fmap_cons in Ha'. cbn in Ha'. simplify_eq.
    pose proof (generateOnce_effects rt w c req s) as (Ha & Hw & _).
    pose proof (generateOnce_grows rt w c req s) as (_ & _ & Hsent).
    cbv zeta in Hsent. destruct Hsent as [r Hsent]; [right; eauto|].
    rewrite fmap_cons, retryLoop_step.
    destruct (generateOnce rt w c req s) as [[? ?] s1].
    cbn [fst snd] in *. simplify_eq. rewrite Hret. cbn [negb].
    destruct (Z.geb_spec (Z.of_nat a) (MaxRetries (retryConfig c))); [lia|].
    unfold ctx_Err_now, select_Done. rewrite Hctx. cbv beta iota zeta.
    destruct (decide _) as [?|_]; [done|]. rewrite Hsel.
    match goal with
    | |- context [retryLoop rt w c req (Z.of_nat <$> todo) ?le ?s3] =>
        destruct (IH (S i) todo le s3)
          as (s_last & resp & H1 & H2 & H3 & H4 & H5)
    end.
    + cbn [sent]. rewrite Hsent, length_app, Hlen. cbn [length]. lia.
    + intros s' Hs'. apply Hfail. lia.
    + intros s' Hs'. apply Hok. lia.
    + intros j Hj. destruct (Hlt (S j)) as (a' & Ha' & Hlta'); [lia|].
      rewrite fmap_cons in Ha'. eauto.
    + cbn in Hk. lia.
    + exists s_last, resp. rewrite H3.
      split; [lia|]. split; [done|]. split; [done|].
      cbn [attempts waits] in H4, H5.
      rewrite length_app, Hw in H5. cbn in H5. split; lia.
Qed.

(** X14. When the next [k] exchanges with the server make the attempt
    fail with a retryable error and the one after them makes it succeed,
    with [k] at most [MaxRetries] and a context that is never done,
    [Generate] returns the response of attempt [k + 1], after [k + 1]
    attempts and [k] waits. *)
Theorem Generate_succeeds_after_retries (req : InferenceRequest Value)
    (k : nat) s :
  Z.of_nat k ≤ MaxRetries (retryConfig c) →
  never_cancelled w →
  (∀ s', (length (sent s') < length (sent s) + k)%nat →
         ∃ e, (generateOnce rt w c req s').1 = (None, Some e)
              ∧ IsRetryable e = true) →
  (∀ s', length (sent s') = (length (sent s) + k)%nat →
         ∃ resp, (generateOnce rt w c req s').1 = (Some resp, None)) →
  ∃ s_last resp,
    (generateOnce rt w c req s_last).1 = (Some resp, None)
    ∧ Generate rt w c (Some req) s
      = ((Some resp, None), (generateOnce rt w c req s_last).2)
    ∧ length (sent s_last) = (length (sent s) + k)%nat
    ∧ attempts (Generate rt w c (Some req) s).2 = (attempts s + k + 1)%nat
    ∧ length (waits (Generate rt w c (Some req) s).2)
      = (length (waits s) + k)%nat.
Proof.
  intros Hk Hnc Hfail Hok.
  destruct (decide (MaxRetries (retryConfig c) = 0)) as [H0|H0].
  { assert (k = 0%nat) as -> by lia.
    destruct (Hok s) as [resp Hresp]; [lia|].
    pose proof (generateOnce_effects rt w c req s) as (Ha & Hw & _).
    exists s, resp. unfold Generate. destruct (decide _); [|done].
    split; [done|]. split; [by destruct (generateOnce rt w c req s);
                            cbn in *; subst|].
    split; [lia|]. split; [lia|]. rewrite Hw. lia. }
  destruct (retryLoop_succeeds_after req (length (sent s)) Hnc k 0
              (seq 0 (Z.to_nat (MaxRetries (retryConfig c) + 1))) None s)
    as (s_last & resp & H1 & H2 & H3 & H4 & H5).
  - lia.
  - intros s' Hs'. apply Hfail. lia.
  - intros s' Hs'. apply Hok. lia.
  - intros j Hj. exists (Z.of_nat j). split; [|lia].
    rewrite list_lookup_fmap, lookup_seq_lt by lia. done.
  - rewrite length_seq. lia.
  - pose proof (generateOnce_effects rt w c req s_last) as (Ha & Hw & _).
    exists s_last, resp. rewrite Generate_loop by done.
    unfold attemptRange. rewrite H3. cbn [fst snd].
    split; [done|]. split; [done|]. split; [lia|]. split; [lia|].
    rewrite Hw. lia.
Qed.

End Waits.

Section ContextDone.
Context {Value : Type}.
Variable rt : Runtime Value.
Variable w : World.
Variable c : HTTPInferenceClient.

(** ** The context is done before the wait *)

(** The loop over attempts that fail and are retried: it goes on with
    the attempts that are left, from the state [retried] describes. *)
Lemma retryLoop_retried (req : InferenceRequest Value) (k : nat) :
  ∀ (first m : nat) lastErr s sk,
    retried rt w c req k first s sk →
    Z.of_nat first + Z.of_nat k ≤ MaxRetries (retryConfig c) →
    (∃ lastErr',
       retryLoop rt w c req (Z.of_nat <$> seq first (k + m)) lastErr s
       = retryLoop rt w c req (Z.of_nat <$> seq (first + k) m) lastErr' sk)
    ∧ attempts sk = (attempts s + k)%nat
    ∧ length (waits sk) = (length (waits s) + k)%nat.
Proof.
  induction k as [|k IH]; intros first m lastErr s sk Hk Hle.
  - cbn in Hk. subst sk. rewrite Nat.add_0_r.
    split; [by exists lastErr|]. split; lia.
  - cbn [retried] in Hk. cbv zeta in Hk.
    destruct Hk as ((e & He & Hr) & Hctx & Hsel & Hk).
    pose proof (generateOnce_effects rt w c req s) as (Ha & Hw & _).
    destruct (IH (S first) m (Some e) _ sk Hk) as ((le & Hloop) & Ea & Ew);
      [lia|].
    unfold after_wait in Ea, Ew. cbn [attempts waits] in Ea, Ew.
    rewrite length_app, Hw in Ew. cbn [length] in Ew. rewrite Ha in Ea.
    split; [|split; lia]. exists le.
    change (seq first (S k + m)) with (first :: seq (S first) (k + m)).
    rewrite fmap_cons, retryLoop_step.
    destruct (generateOnce rt w c req s) as [[resp err] s1].
    cbn [fst snd] in *. simplify_eq. rewrite Hr. cbn [negb].
    destruct (Z.geb_spec (Z.of_nat first) (MaxRetries (retryConfig c)));
      [lia|].
    unfold ctx_Err_now, select_Done. rewrite Hctx. cbv beta iota zeta.
    destruct (decide _) as [?|_]; [done|].
    cbn [attempts sent waits observed]. rewrite Hsel.
    unfold after_wait in Hloop. rewrite Hloop. by replace (S first + k)%nat with (first + S k)%nat by lia.
Qed.

(** C3, as the code has it. Whenever an attempt of [Generate], the first
    or a later one, fails with a retryable error, retries remain and
    [ctx.Err()] is not nil before the wait, [Generate] returns at once
    with the error of that attempt unchanged, which is of category
    [RateLimit] or [Server] and not a cancellation error of category
    [Unknown]: no wait is entered and no further attempt is made. The
    attempt is number [k + 1], after [k] attempts that were retried. *)
Theorem Generate_context_done_keeps_error (req : InferenceRequest Value)
    (k : nat) s sk e :
  Z.of_nat k < MaxRetries (retryConfig c) →
  retried rt w c req k 0 s sk →
  (generateOnce rt w c req sk).1 = (None, Some e) →
  IsRetryable e = true →
  ctx_Err w (observed (generateOnce rt w c req sk).2) ≠ None →
  Generate rt w c (Some req) s
  = ((None, Some e), observe_ctx (generateOnce rt w c req sk).2)
  ∧ (Category e = ErrCategoryRateLimit ∨ Category e = ErrCategoryServer)
  ∧ attempts (Generate rt w c (Some req) s).2 = (attempts s + k + 1)%nat
  ∧ length (waits (Generate rt w c (Some req) s).2)
    = (length (waits s) + k)%nat.
Proof.
  intros Hlt Hk He Hr Hctx.
  assert (Generate rt w c (Some req) s
          = ((None, Some e), observe_ctx (generateOnce rt w c req sk).2))
    as HG.
  { rewrite Generate_loop by lia. unfold attemptRange.
    replace (Z.to_nat (MaxRetries (retryConfig c) + 1))
      with (k + S (Z.to_nat (MaxRetries (retryConfig c)) - k))%nat by lia.
    destruct (retryLoop_retried req k 0
                (S (Z.to_nat (MaxRetries (retryConfig c)) - k)) None s sk Hk)
      as ((le & ->) & _); [lia|].
    cbn [Nat.add seq]. rewrite fmap_cons, retryLoop_step.
    destruct (generateOnce rt w c req sk) as [[resp err] s1].
    cbn [fst snd] in *. simplify_eq. rewrite Hr. cbn [negb].
    destruct (Z.geb_spec (Z.of_nat k) (MaxRetries (retryConfig c))); [lia|].
    unfold ctx_Err_now. by destruct (decide _). }
  split; [done|]. split.
  { unfold IsRetryable in Hr. destruct (Category e); auto; done. }
  rewrite HG. cbn [snd observe_ctx attempts waits].
  destruct (retryLoop_retried req k 0 0 None s sk Hk) as (_ & Ea & Ew);
    [lia|].
  pose proof (generateOnce_effects rt w c req sk) as (Ha & Hw & _).
  rewrite Ha, Hw. split; lia.
Qed.

End ContextDone.

(** ** Construction *)

(** X15. [NewHTTPInferenceClient] copies [MaxRetries] as given. When it is
    positive, no backoff field of the client is zero: a field given as
    zero gets its default, which is one second for the initial backoff,
    sixty seconds for the largest backoff, the float64 2.0, which is
    4503599627370496 / 2^51, for the factor and the float64 0.1, which is
    7205759403792794 / 2^56, for the jitter fraction, so a jitter fraction or
    a factor of zero cannot be configured, and a field that is not zero
    is kept. When it is not positive, the backoff fields are kept as
    given, zero or not. *)
Theorem NewHTTPInferenceClient_retry_defaults
    (config : HTTPInferenceClientConfig) :
  let rc := retryConfig (NewHTTPInferenceClient config).2 in
  MaxRetries rc = cfg_MaxRetries config
  ∧ (0 < cfg_MaxRetries config →
     InitialBackoff rc ≠ 0 ∧ MaxBackoff rc ≠ 0
     ∧ float64_is_zero (BackoffFactor rc) = false
     ∧ float64_is_zero (JitterFraction rc) = false
     ∧ (cfg_InitialBackoff config ≠ 0 →
        InitialBackoff rc = cfg_InitialBackoff config)
     ∧ (cfg_MaxBackoff config ≠ 0 → MaxBackoff rc = cfg_MaxBackoff config)
     ∧ (float64_is_zero (cfg_BackoffFactor config) = false →
        BackoffFactor rc = cfg_BackoffFactor config)
     ∧ (float64_is_zero (cfg_JitterFraction config) = false →
        JitterFraction rc = cfg_JitterFraction config)
     ∧ (cfg_InitialBackoff config = 0 → InitialBackoff rc = 1000000000)
     ∧ (cfg_MaxBackoff config = 0 → MaxBackoff rc = 60000000000)
     ∧ (float64_is_zero (cfg_BackoffFactor config) = true →
        BackoffFactor rc = S754_finite false 4503599627370496 (-51))
     ∧ (float64_is_zero (cfg_JitterFraction config) = true →
        JitterFraction rc = S754_finite false 7205759403792794 (-56)))
  ∧ (cfg_MaxRetries config ≤ 0 →
     rc = mkRetryConfig (cfg_MaxRetries config) (cfg_InitialBackoff config)
            (cfg_MaxBackoff config) (cfg_BackoffFactor config)
            (cfg_JitterFraction config)).
Proof.
  cbv zeta. unfold NewHTTPInferenceClient, retryConfig_of.
  cbn [snd retryConfig MaxRetries InitialBackoff MaxBackoff BackoffFactor
       JitterFraction].
  destruct (Z.gtb_spec (cfg_MaxRetries config) 0) as [Hpos|Hneg].
  - cbn [MaxRetries InitialBackoff MaxBackoff BackoffFactor JitterFraction].
    split; [done|]. split; [|lia]. intros _.
    destruct (Z.eqb_spec (cfg_InitialBackoff config) 0);
      destruct (Z.eqb_spec (cfg_MaxBackoff config) 0);
      destruct (float64_is_zero (cfg_BackoffFactor config)) eqn:?;
      destruct (float64_is_zero (cfg_JitterFraction config)) eqn:?;
      repeat split; done.
  - split; [done|]. split; [lia|done].
Qed.

(** X16. The HTTP client that [NewHTTPInferenceClient] creates never has a
    zero timeout, a zero number of idle connections or a zero idle
    timeout: 5 minutes, 100 and 90 seconds stand in for a zero, any other
    value is kept; the limit of idle connections per host is the overall
    limit. *)
Theorem NewHTTPInferenceClient_connection_defaults
    (config : HTTPInferenceClientConfig) :
  let hc := (NewHTTPInferenceClient config).1 in
  Timeout hc ≠ 0
  ∧ MaxIdleConns (Transport hc) ≠ 0
  ∧ IdleConnTimeout (Transport hc) ≠ 0
  ∧ MaxIdleConnsPerHost (Transport hc) = MaxIdleConns (Transport hc)
  ∧ (cfg_Timeout config ≠ 0 → Timeout hc = cfg_Timeout config)
  ∧ (cfg_Timeout config = 0 → Timeout hc = 300000000000)
  ∧ (cfg_MaxIdleConns config ≠ 0 →
     MaxIdleConns (Transport hc) = cfg_MaxIdleConns config)
  ∧ (cfg_MaxIdleConns config = 0 → MaxIdleConns (Transport hc) = 100)
  ∧ (cfg_IdleConnTimeout config ≠ 0 →
     IdleConnTimeout (Transport hc) = cfg_IdleConnTimeout config)
  ∧ (cfg_IdleConnTimeout config = 0 →
     IdleConnTimeout (Transport hc) = 90000000000).
Proof.
  cbv zeta. unfold NewHTTPInferenceClient, timeout_of, transport_of.
  cbn [fst Timeout Transport MaxIdleConns MaxIdleConnsPerHost
       IdleConnTimeout].
  destruct (Z.eqb_spec (cfg_Timeout config) 0);
    destruct (Z.eqb_spec (cfg_MaxIdleConns config) 0);
    destruct (Z.eqb_spec (cfg_IdleConnTimeout config) 0);
    repeat split; done.
Qed.

(** ** The endpoint *)

(** X17. The completion path is chosen exactly for the maps that have
    [prompt] and lack [messages]; every other map gets the chat path. *)
Theorem determineEndpoint_completions_iff {Value}
    (params : gmap string Value) :
  (determineEndpoint params = "/v1/completions"
   ↔ params !! "messages" = None ∧ is_Some (params !! "prompt"))
  ∧ (determineEndpoint params = "/v1/chat/completions"
     ↔ is_Some (params !! "messages") ∨ params !! "prompt" = None).
Proof.
  unfold determineEndpoint.
  destruct (params !! "messages") as [m|];
    destruct (params !! "prompt") as [p|]; split; split;
    try done; try (intros [? ?]; done); eauto;
    try (intros [[? ?]|?]; done).
Qed.

(** X18. Only the keys [messages] and [prompt] count: inserting or
    deleting any other key leaves the endpoint as it is, and inserting
    [messages] always gives the chat path. *)
Theorem determineEndpoint_other_keys {Value} (params : gmap string Value)
    (k : string) (v : Value) :
  (k ≠ "messages" → k ≠ "prompt" →
   determineEndpoint (<[k := v]> params) = determineEndpoint params
   ∧ determineEndpoint (delete k params) = determineEndpoint params)
  ∧ determineEndpoint (<["messages" := v]> params) = "/v1/chat/completions".
Proof.
  unfold determineEndpoint. split.
  - intros Hm Hp.
    by rewrite !lookup_insert_ne, !lookup_delete_ne by done.
  - by rewrite lookup_insert_eq.
Qed.

(** ** Status codes *)

(** X19. Each category has one set of status codes: [InvalidRequest] is
    400 only, [Auth] is 401 and 403 only, [RateLimit] is 429 only,
    [Server] is exactly the codes from 500 on, and [Unknown] is
    everything else. *)
Theorem mapStatusCodeToCategory_inverse (n : Z) :
  (mapStatusCodeToCategory n = ErrCategoryInvalidReq ↔ n = 400)
  ∧ (mapStatusCodeToCategory n = ErrCategoryAuth ↔ n = 401 ∨ n = 403)
  ∧ (mapStatusCodeToCategory n = ErrCategoryRateLimit ↔ n = 429)
  ∧ (mapStatusCodeToCategory n = ErrCategoryServer ↔ 500 ≤ n)
  ∧ (mapStatusCodeToCategory n = ErrCategoryUnknown
     ↔ n < 500 ∧ n ≠ 400 ∧ n ≠ 401 ∧ n ≠ 403 ∧ n ≠ 429).
Proof.
  unfold mapStatusCodeToCategory.
  repeat match goal with
         | |- context [Z.eqb ?a ?b] => destruct (Z.eqb_spec a b)
         end;
    destruct (Z.geb_spec n 500); cbn [orb];
    repeat split; intros; try done; try lia;
    repeat match goal with
           | H : _ ∨ _ |- _ => destruct H
           | H : _ ∧ _ |- _ => destruct H
           end; try done; try lia.
Qed.

(** ** The error of a failed response *)

(** X20. The message of the error that [handleErrorResponse] builds is
    [HTTP], the status code and a text: the [error.message] of the body
    when the body decodes as an error envelope and that message is not
    empty, and the body itself in every other case, also when the
    envelope decodes with an empty message. The cause always quotes the
    status code and the whole body. *)
Theorem handleErrorResponse_message {Value} (rt : Runtime Value)
    (statusCode : Z) (body : list byte) :
  let e := handleErrorResponse rt statusCode body in
  let raw := String.string_of_list_byte body in
  (∀ er, json_Unmarshal_errorResp rt body = Ok er →
         Error_Message er ≠ "" →
         Message e = "HTTP " +:+ pretty statusCode +:+ ": "
                     +:+ Error_Message er)
  ∧ (∀ er, json_Unmarshal_errorResp rt body = Ok er →
           Error_Message er = "" →
           Message e = "HTTP " +:+ pretty statusCode +:+ ": " +:+ raw)
  ∧ (∀ err, json_Unmarshal_errorResp rt body = Err err →
            Message e = "HTTP " +:+ pretty statusCode +:+ ": " +:+ raw)
  ∧ RawError e
    = Some (errors_New ("status code: " +:+ pretty statusCode
                        +:+ ", body: " +:+ raw)).
Proof.
  cbv zeta. unfold handleErrorResponse. cbn [Message RawError].
  split; [|split; [|split]]; [| | |done].
  - intros er -> Hne. by destruct (decide _).
  - intros er -> He. by destruct (decide _).
  - by intros err ->.
Qed.

(** X21. The retry condition installed on the resty client and the
    classification of the responses agree: a response is retried exactly
    when the error that [handleErrorResponse] makes of its status is
    retryable, that is for 429 and from 500 on; a transport error is
    always retried. *)
Theorem retryCondition_agrees {Value} (rt : Runtime Value)
    (r : Resty.Response) (body : list byte) (err : goerror) :
  retryCondition r None
  = IsRetryable (handleErrorResponse rt (Resty.StatusCode r) body)
  ∧ (retryCondition r None = true
     ↔ Resty.StatusCode r = 429 ∨ 500 ≤ Resty.StatusCode r)
  ∧ retryCondition r (Some err) = true.
Proof.
  unfold retryCondition, IsRetryable.
  cbn [handleErrorResponse Category]. unfold mapStatusCodeToCategory.
  generalize (Resty.StatusCode r). intros n.
  repeat match goal with
         | |- context [Z.eqb ?a ?b] => destruct (Z.eqb_spec a b)
         end;
    destruct (Z.geb_spec n 500); cbn [orb];
    repeat split; intros; try done; try lia;
    repeat match goal with
           | H : _ ∨ _ |- _ => destruct H
           end; try done; try lia; try (by left); by right.
Qed.

(** ** The client on resty *)

Section RestyClient.
Context {Value : Type}.
Variable rt : Runtime Value.
Variable w : World.
Variable rw : Resty.World Value.
Variable c : HTTPInferenceClient.

(** X22. For a request, the client on resty posts exactly once, to the
    endpoint of the parameters, with the parameters as body and the
    headers that the constructor and [Generate] set: [Content-Type],
    [Authorization] exactly with an API key, and the request id exactly
    when there is one, under the key [X-Request-Id], the canonical form
    in which [SetHeader] stores the name [X-Request-ID] of the source; it
    looks at the context only when the post fails, and it returns either
    a response or an error. *)
Theorem Resty_Generate_posts_once (req : InferenceRequest Value)
    (rs : Resty.State Value) :
  let o := (Resty.Generate rt rw c (Some req) rs).1 in
  let rs' := (Resty.Generate rt rw c (Some req) rs).2 in
  (∃ r, Resty.posted rs' = Resty.posted rs ++ [r]
        ∧ Resty.Endpoint r = determineEndpoint (Params req)
        ∧ Resty.Body r = Params req
        ∧ Resty.Header r !! "Content-Type" = Some "application/json"
        ∧ Resty.Header r !! "Authorization"
          = (if decide (apiKey c = "") then None
             else Some ("Bearer " +:+ apiKey c))
        ∧ Resty.Header r !! "X-Request-Id"
          = (if decide (RequestID req = "") then None
             else Some (RequestID req))
        ∧ Resty.Header r !! "X-Request-ID" = None
        ∧ ((∃ resp, Resty.Post rw (length (Resty.posted rs)) r = Ok resp) →
           Resty.observed rs' = Resty.observed rs))
  ∧ ((∃ resp, o = (Some resp, None)) ∨ (∃ e, o = (None, Some e))).
Proof.
  cbv zeta. unfold Resty.Generate, Resty.Post_now, Resty.handleRequestError,
    Resty.ctx_Err_now.
  unfold_M. cbv beta iota zeta.
  match goal with
  | |- context [Resty.Post rw _ ?r] => set (q := r)
  end.
  split.
  - exists q. split.
    { destruct (Resty.Post rw _ q); repeat case_match; done. }
    subst q. cbn [Resty.Endpoint Resty.Body Resty.Header].
    unfold http_Header_Set.
    change (CanonicalMIMEHeaderKey "Content-Type") with "Content-Type".
    change (CanonicalMIMEHeaderKey "Authorization") with "Authorization".
    change (CanonicalMIMEHeaderKey "X-Request-ID") with "X-Request-Id".
    split; [done|]. split; [done|].
    destruct (decide (apiKey c ≠ "")); destruct (decide (apiKey c = ""));
      try done;
      destruct (decide (RequestID req ≠ ""));
      destruct (decide (RequestID req = "")); try done.
    all: split; [by simplify_map_eq|].
    all: split; [by simplify_map_eq|].
    all: split; [by simplify_map_eq|].
    all: split; [by simplify_map_eq|].
    all: intros [resp ->]; by repeat case_match.
  - destruct (Resty.Post rw _ q); repeat case_match; simplify_eq; cbn; eauto.
Qed.

(** X23. On one exchange the two clients agree: when the environment
    gives the attempt of the bare client and the post of the client on
    resty the same answer (the same transport error, or the same status
    with the same readable body) and the same views of the context, both
    make the same response or error of it. *)
Theorem generateOnce_agrees_with_resty (req : InferenceRequest Value)
    (s : State) (rs : Resty.State Value) :
  (∃ body, json_Marshal rt (Params req) = Ok body) →
  http_NewRequest_error rt "POST"
    (baseURL c +:+ determineEndpoint (Params req)) = None →
  Resty.ctx_Err rw (Resty.observed rs) = ctx_Err w (observed s) →
  Resty.ctx_Err rw (S (Resty.observed rs)) = ctx_Err w (S (observed s)) →
  (∀ r r',
     match client_Do w (length (sent s)) r,
           Resty.Post rw (length (Resty.posted rs)) r' with
     | Err e1, Err e2 => e1 = e2
     | Ok resp, Ok resp' =>
         StatusCode resp = Resty.StatusCode resp'
         ∧ ReadAll_Body resp = Ok (Resty.RespBody resp')
     | _, _ => False
     end) →
  (generateOnce rt w c req s).1
  = (Resty.Generate rt rw c (Some req) rs).1.
Proof.
  intros [body Hm] Hn Hc1 Hc2 Hsame.
  rewrite generateOnce_eq, Hm, Hn. cbv zeta.
  unfold Resty.Generate, Resty.Post_now, Resty.handleRequestError,
    Resty.ctx_Err_now.
  unfold_M. cbv beta iota zeta. cbn [Resty.observed Resty.posted].
  match goal with
  | |- context [Resty.Post rw _ ?r] => set (q := r)
  end.
  specialize (Hsame (outgoing_request c req body) q).
  destruct (client_Do w _ _) as [resp|e1];
    destruct (Resty.Post rw _ q) as [resp'|e2]; try done.
  - destruct Hsame as [Hst Hbody]. rewrite Hbody, Hst.
    destruct (decide (Resty.StatusCode resp' ≠ 200)); [done|].
    cbn [fst]. do 3 f_equal.
    destruct (decide (0 < length (Resty.RespBody resp'))%nat) as [|Hz];
      [done|].
    destruct (Resty.RespBody resp') as [|b bs]; [|cbn in Hz; lia].
    by destruct (json_Unmarshal_empty rt) as [e ->].
  - subst e2. cbn [Resty.observed Resty.posted]. rewrite Hc1.
    destruct (decide (ctx_Err w (observed s) = Some Canceled)); [done|].
    cbn [Resty.observed Resty.posted]. rewrite Hc2.
    by destruct (decide (ctx_Err w (S (observed s)) = Some DeadlineExceeded)).
Qed.

End RestyClient.

(** ** The clamp of the backoff *)

(** X24. The float64 that [calculateBackoff] converts to a duration is
    the sum of the capped backoff and the jitter, unless that sum is
    below zero: then it is the initial backoff, and nothing else. So it
    never compares below zero when [float64(InitialBackoff)] does not. *)
Theorem calculateBackoff_float64_not_negative
    (initial max jitterFraction pow r : spec_float) :
  let jittered := jittered_backoff initial max jitterFraction pow r in
  let backoff := calculateBackoff_float64 initial max jitterFraction pow r in
  (float64_ltb jittered float64_0 = true → backoff = initial)
  ∧ (float64_ltb jittered float64_0 = false → backoff = jittered)
  ∧ (float64_ltb initial float64_0 = false →
     float64_ltb backoff float64_0 = false).
Proof.
  cbv zeta. unfold calculateBackoff_float64. cbv zeta.
  by destruct (float64_ltb (jittered_backoff _ _ _ _ _) float64_0) eqn:Hneg.
Qed.

(** ** A negative number of retries *)

(** X25. [NewHTTPInferenceClient] accepts a negative [MaxRetries] as it
    is, and with such a client [Generate] makes no attempt at all: for a
    request it returns no response and no error, and leaves the state
    untouched. *)
Theorem Generate_with_negative_MaxRetries {Value} (rt : Runtime Value)
    (w : World) (config : HTTPInferenceClientConfig)
    (req : InferenceRequest Value) (s : State) :
  cfg_MaxRetries config < 0 →
  let c := (NewHTTPInferenceClient config).2 in
  MaxRetries (retryConfig c) = cfg_MaxRetries config
  ∧ Generate rt w c (Some req) s = ((None, None), s).
Proof.
  intros Hneg c.
  assert (MaxRetries (retryConfig c) = cfg_MaxRetries config) as Hmax.
  { subst c. unfold NewHTTPInferenceClient, retryConfig_of.
    cbn [snd retryConfig MaxRetries].
    by destruct (Z.gtb_spec (cfg_MaxRetries config) 0). }
  split; [done|]. apply Generate_negative_MaxRetries. lia.
Qed.

(** * The further properties at concrete inputs *)

Lemma generateOnce_marshal_failure_witness :
  let err := errors_New "json: unsupported value" in
  let e := mkInferenceError ErrCategoryInvalidReq
             "failed to marshal request: json: unsupported value"
             (Some err) in
  let w := demo_server 200 "{}" None in
  json_Marshal demo_runtime_no_marshal (Params demo_request) = Err err
  ∧ generateOnce demo_runtime_no_marshal w (demo_client 3) demo_request fresh
    = ((None, Some e), mkState 1 [] 0 [])
  ∧ IsRetryable e = false
  ∧ (0 ≤ MaxRetries (retryConfig (demo_client 3)) →
     Generate demo_runtime_no_marshal w (demo_client 3) (Some demo_request)
       fresh
     = ((None, Some e), mkState 1 [] 0 [])).
Proof.
  intros err e w. split; [reflexivity|].
  apply (generateOnce_marshal_failure demo_runtime_no_marshal w
           (demo_client 3) demo_request fresh err).
  reflexivity.
Defined.

Lemma generateOnce_request_construction_failure_witness :
  let err := errors_New "invalid URL" in
  let e := mkInferenceError ErrCategoryUnknown
             "failed to create HTTP request: invalid URL" (Some err) in
  let w := demo_server 200 "{}" None in
  json_Marshal demo_runtime_bad_url (Params demo_request)
  = Ok (String.list_byte_of_string "{}")
  ∧ http_NewRequest_error demo_runtime_bad_url "POST"
      (baseURL (demo_client 3) +:+ determineEndpoint (Params demo_request))
    = Some err
  ∧ generateOnce demo_runtime_bad_url w (demo_client 3) demo_request fresh
    = ((None, Some e), mkState 1 [] 0 [])
  ∧ IsRetryable e = false
  ∧ (0 ≤ MaxRetries (retryConfig (demo_client 3)) →
     Generate demo_runtime_bad_url w (demo_client 3) (Some demo_request) fresh
     = ((None, Some e), mkState 1 [] 0 [])).
Proof.
  intros err e w. split; [reflexivity|]. split; [reflexivity|].
  apply (generateOnce_request_construction_failure demo_runtime_bad_url w
           (demo_client 3) demo_request fresh
           (String.list_byte_of_string "{}") err);
    reflexivity.
Defined.

(** The hypotheses on the answer hold in the concrete setting. *)
Lemma demo_answered (w : World) (c : HTTPInferenceClient)
    (answer : result HTTPResponse) :
  (∀ r, client_Do w 0 r = answer) →
  answered demo_runtime w c demo_request fresh answer.
Proof.
  intros Hdo. split; [by eexists|]. split; [reflexivity|exact Hdo].
Defined.

Lemma generateOnce_read_failure_witness :
  let err := errors_New "unexpected EOF" in
  let w := demo_unreadable 400 in
  let e := mkInferenceError ErrCategoryServer
             "failed to read response body: unexpected EOF" (Some err) in
  answered demo_runtime w (demo_client 3) demo_request fresh
    (Ok (mkHTTPResponse 400 (Err err)))
  ∧ (generateOnce demo_runtime w (demo_client 3) demo_request fresh).1
    = (None, Some e)
  ∧ IsRetryable e = true.
Proof.
  intros err w e.
  assert (answered demo_runtime w (demo_client 3) demo_request fresh
            (Ok (mkHTTPResponse 400 (Err err)))) as Hans.
  { apply demo_answered. reflexivity. }
  split; [exact Hans|].
  exact (generateOnce_read_failure demo_runtime w (demo_client 3)
           demo_request fresh 400 err Hans).
Defined.

Lemma generateOnce_status_not_200_witness :
  let body := String.list_byte_of_string "created" in
  let w := demo_server 201 "created" None in
  let e := handleErrorResponse demo_runtime 201 body in
  answered demo_runtime w (demo_client 3) demo_request fresh
    (Ok (mkHTTPResponse 201 (Ok body)))
  ∧ 201 ≠ 200
  ∧ (generateOnce demo_runtime w (demo_client 3) demo_request fresh).1
    = (None, Some e)
  ∧ Category e = mapStatusCodeToCategory 201
  ∧ (IsRetryable e = true ↔ 201 = 429 ∨ 500 ≤ 201)
  ∧ (201 < 400 → Category e = ErrCategoryUnknown).
Proof.
  intros body w e.
  assert (answered demo_runtime w (demo_client 3) demo_request fresh
            (Ok (mkHTTPResponse 201 (Ok body)))) as Hans.
  { apply demo_answered. reflexivity. }
  split; [exact Hans|]. split; [discriminate|].
  apply (generateOnce_status_not_200 demo_runtime w (demo_client 3)
           demo_request fresh 201 body Hans).
  discriminate.
Defined.

Lemma generateOnce_status_200_witness :
  let body := String.list_byte_of_string "{}" in
  let w := demo_server 200 "{}" None in
  answered demo_runtime w (demo_client 3) demo_request fresh
    (Ok (mkHTTPResponse 200 (Ok body)))
  ∧ ∃ resp,
      (generateOnce demo_runtime w (demo_client 3) demo_request fresh).1
      = (Some resp, None)
      ∧ RespRequestID resp = "req-1"
      ∧ Response resp = body
      ∧ (∀ v, json_Unmarshal demo_runtime body = Ok v → RawData resp = v)
      ∧ (∀ err, json_Unmarshal demo_runtime body = Err err →
                RawData resp = None)
      ∧ (0 ≤ MaxRetries (retryConfig (demo_client 3)) →
         (Generate demo_runtime w (demo_client 3) (Some demo_request)
            fresh).1
         = (Some resp, None)).
Proof.
  intros body w.
  assert (answered demo_runtime w (demo_client 3) demo_request fresh
            (Ok (mkHTTPResponse 200 (Ok body)))) as Hans.
  { apply demo_answered. reflexivity. }
  split; [exact Hans|].
  exact (generateOnce_status_200 demo_runtime w (demo_client 3)
           demo_request fresh body Hans).
Defined.

Lemma Generate_context_cancelled_witness :
  let err := errors_New "connection refused" in
  let w := demo_refused (Some Canceled) in
  let c := demo_client 10 in
  let e := mkInferenceError ErrCategoryUnknown "request cancelled"
             (Some err) in
  0 ≤ MaxRetries (retryConfig c)
  ∧ answered demo_runtime w c demo_request fresh (Err err)
  ∧ ctx_Err w (observed fresh) = Some Canceled
  ∧ (Generate demo_runtime w c (Some demo_request) fresh).1 = (None, Some e)
  ∧ attempts (Generate demo_runtime w c (Some demo_request) fresh).2
    = S (attempts fresh)
  ∧ waits (Generate demo_runtime w c (Some demo_request) fresh).2
    = waits fresh.
Proof.
  intros err w c e.
  assert (answered demo_runtime w c demo_request fresh (Err err)) as Hans.
  { apply demo_answered. reflexivity. }
  split; [simpl; lia|]. split; [exact Hans|]. split; [reflexivity|].
  apply (Generate_context_cancelled demo_runtime w c demo_request fresh err);
    [simpl; lia|exact Hans|reflexivity].
Defined.

Lemma Generate_deadline_exceeded_witness :
  let err := errors_New "connection refused" in
  let w := demo_refused (Some DeadlineExceeded) in
  let c := demo_client 10 in
  let e := mkInferenceError ErrCategoryServer "request timeout" (Some err) in
  0 ≤ MaxRetries (retryConfig c)
  ∧ answered demo_runtime w c demo_request fresh (Err err)
  ∧ (∀ n, (observed fresh ≤ n)%nat → ctx_Err w n = Some DeadlineExceeded)
  ∧ (Generate demo_runtime w c (Some demo_request) fresh).1 = (None, Some e)
  ∧ IsRetryable e = true
  ∧ attempts (Generate demo_runtime w c (Some demo_request) fresh).2
    = S (attempts fresh)
  ∧ waits (Generate demo_runtime w c (Some demo_request) fresh).2
    = waits fresh.
Proof.
  intros err w c e.
  assert (answered demo_runtime w c demo_request fresh (Err err)) as Hans.
  { apply demo_answered. reflexivity. }
  split; [simpl; lia|]. split; [exact Hans|].
  split; [intros n _; reflexivity|].
  apply (Generate_deadline_exceeded demo_runtime w c demo_request fresh err);
    [simpl; lia|exact Hans|intros n _; reflexivity].
Defined.

Lemma Generate_effects_bounded_witness :
  let w := demo_server 503 "busy" None in
  let c := demo_client 2 in
  let s' := (Generate demo_runtime w c (Some demo_request) fresh).2 in
  0 ≤ MaxRetries (retryConfig c)
  ∧ (1 ≤ attempts s' ≤ 3)%nat
  ∧ (length (sent s') ≤ attempts s')%nat
  ∧ (length (waits s') ≤ 2)%nat.
Proof.
  intros w c s'.
  assert (0 ≤ MaxRetries (retryConfig c)) as Hmax by (simpl; lia).
  split; [exact Hmax|].
  destruct (Generate_effects_bounded demo_runtime w c demo_request fresh Hmax)
    as (a & n & k & Ea & En & Ek & _ & _ & La & Ua & Ln & Lk & _ & Uk).
  subst s'. rewrite Ea, En, Ek.
  change (MaxRetries (retryConfig c)) with 2 in Ua, Uk.
  cbn [fresh attempts sent waits length]. repeat split; lia.
Defined.

Lemma Generate_outcome_exclusive_witness :
  let w := demo_server 503 "busy" None in
  let c := demo_client 2 in
  0 ≤ MaxRetries (retryConfig c)
  ∧ ((∃ resp, (Generate demo_runtime w c (Some demo_request) fresh).1
              = (Some resp, None))
     ∨ (∃ e, (Generate demo_runtime w c (Some demo_request) fresh).1
             = (None, Some e))).
Proof.
  intros w c. split; [simpl; lia|].
  apply (Generate_outcome_exclusive demo_runtime w c (Some demo_request)
           fresh).
  simpl; lia.
Defined.

Lemma Generate_returns_last_attempt_witness :
  let w := demo_server 503 "busy" None in
  let c := demo_client 2 in
  let o := (Generate demo_runtime w c (Some demo_request) fresh).1 in
  let s' := (Generate demo_runtime w c (Some demo_request) fresh).2 in
  0 ≤ MaxRetries (retryConfig c)
  ∧ ((∃ s_a, (attempts fresh ≤ attempts s_a)%nat
             ∧ o = (generateOnce demo_runtime w c demo_request s_a).1
             ∧ (s' = (generateOnce demo_runtime w c demo_request s_a).2
                ∨ s' = observe_ctx
                         (generateOnce demo_runtime w c demo_request s_a).2))
     ∨ (∃ ce, o = (None, Some (cancelled_during_retry ce)))).
Proof.
  intros w c o s'. split; [simpl; lia|].
  apply (Generate_returns_last_attempt demo_runtime w c demo_request fresh).
  simpl; lia.
Defined.

Lemma Generate_retryable_error_after_all_attempts_witness :
  let w := demo_server 503 "busy" None in
  let c := demo_client 2 in
  let s' := (Generate demo_runtime w c (Some demo_request) fresh).2 in
  0 ≤ MaxRetries (retryConfig c)
  ∧ never_cancelled w
  ∧ (Generate demo_runtime w c (Some demo_request) fresh).1
    = (None, Some demo_503_error)
  ∧ IsRetryable demo_503_error = true
  ∧ Z.of_nat (attempts s')
    = Z.of_nat (attempts fresh) + MaxRetries (retryConfig c) + 1
  ∧ Z.of_nat (length (waits s'))
    = Z.of_nat (length (waits fresh)) + MaxRetries (retryConfig c).
Proof.
  intros w c s'.
  assert (never_cancelled w) as Hnc by (split; intros n; reflexivity).
  assert ((Generate demo_runtime w c (Some demo_request) fresh).1
          = (None, Some demo_503_error)) as Hres by (vm_compute; reflexivity).
  split; [simpl; lia|]. split; [exact Hnc|]. split; [exact Hres|].
  split; [reflexivity|].
  apply (Generate_retryable_error_after_all_attempts demo_runtime w c
           demo_request fresh demo_503_error);
    [simpl; lia|exact Hnc|exact Hres|reflexivity].
Defined.

Lemma retryLoop_cancelled_during_wait_witness :
  let w := demo_cancel_in_wait in
  let c := demo_client 10 in
  let s1 := (generateOnce demo_runtime w c demo_request fresh).2 in
  let e' := mkInferenceError ErrCategoryUnknown
              "request cancelled during retry"
              (Some (errors_New "context canceled")) in
  let s2 := mkState (attempts s1) (sent s1) (S (S (observed s1)))
              (waits s1 ++ [(0, 100000000)]) in
  generateOnce demo_runtime w c demo_request fresh
  = ((None, Some demo_429_error), s1)
  ∧ IsRetryable demo_429_error = true
  ∧ 0 < MaxRetries (retryConfig c)
  ∧ ctx_Err w (observed s1) = None
  ∧ ctx_Done_first w (length (waits s1)) = true
  ∧ retryLoop demo_runtime w c demo_request [0; 1] None fresh
    = (inl (None, Some e'), s2)
  ∧ IsRetryable e' = false
  ∧ (0 = 0 →
     Generate demo_runtime w c (Some demo_request) fresh
     = ((None, Some e'), s2)).
Proof.
  intros w c s1 e' s2.
  assert (generateOnce demo_runtime w c demo_request fresh
          = ((None, Some demo_429_error), s1)) as Hgo
    by (vm_compute; reflexivity).
  split; [exact Hgo|]. split; [reflexivity|]. split; [simpl; lia|].
  split; [reflexivity|]. split; [reflexivity|].
  apply (retryLoop_cancelled_during_wait demo_runtime w c demo_request
           0 [1] None fresh None demo_429_error s1);
    [exact Hgo|reflexivity|simpl; lia|reflexivity|reflexivity].
Defined.

Lemma Generate_succeeds_after_retries_witness :
  let w := demo_flaky in
  let c := demo_client 3 in
  Z.of_nat 2 ≤ MaxRetries (retryConfig c)
  ∧ never_cancelled w
  ∧ ∃ s_last resp,
      (generateOnce demo_runtime w c demo_request s_last).1
      = (Some resp, None)
      ∧ Generate demo_runtime w c (Some demo_request) fresh
        = ((Some resp, None),
           (generateOnce demo_runtime w c demo_request s_last).2)
      ∧ length (sent s_last) = (length (sent fresh) + 2)%nat
      ∧ attempts (Generate demo_runtime w c (Some demo_request) fresh).2
        = (attempts fresh + 2 + 1)%nat
      ∧ length (waits (Generate demo_runtime w c (Some demo_request)
                         fresh).2)
        = (length (waits fresh) + 2)%nat.
Proof.
  intros w c.
  assert (never_cancelled w) as Hnc by (split; intros n; reflexivity).
  split; [simpl; lia|]. split; [exact Hnc|].
  apply (Generate_succeeds_after_retries demo_runtime w c demo_request 2
           fresh); [simpl; lia|exact Hnc| |].
  - intros [a snt o wt] Hs. cbn [sent length fresh] in Hs.
    exists demo_429_error. split; [|reflexivity].
    destruct snt as [|x [|y snt]]; [vm_compute; reflexivity..|].
    cbn in Hs. lia.
  - intros [a snt o wt] Hs. cbn [sent length fresh] in Hs.
    destruct snt as [|x [|y [|z snt]]]; [cbn in Hs; lia..| |cbn in Hs; lia].
    eexists. vm_compute. reflexivity.
Defined.

Lemma generateOnce_agrees_with_resty_witness :
  let w := demo_server 404 "no such model" None in
  let rw := demo_resty_server 404 "no such model" None in
  let c := demo_client 0 in
  let rs := Resty.mkState [] 0%nat in
  (∃ body, json_Marshal demo_runtime (Params demo_request) = Ok body)
  ∧ http_NewRequest_error demo_runtime "POST"
      (baseURL c +:+ determineEndpoint (Params demo_request)) = None
  ∧ (generateOnce demo_runtime w c demo_request fresh).1
    = (Resty.Generate demo_runtime rw c (Some demo_request) rs).1.
Proof.
  intros w rw c rs. split; [by eexists|]. split; [reflexivity|].
  apply (generateOnce_agrees_with_resty demo_runtime w rw c demo_request
           fresh rs);
    [by eexists|reflexivity|reflexivity|reflexivity|].
  intros r r'. split; reflexivity.
Defined.

(** The defaults at the third attempt with the smallest jitter: one
    second times 4, less a tenth. *)
Lemma calculateBackoff_float64_not_negative_witness :
  let initial := float64_of_int64 1000000000 in
  let max := float64_of_int64 60000000000 in
  let pow := float64_of_int64 4 in
  let r := float64_0 in
  float64_ltb (jittered_backoff initial max float64_0_1 pow r) float64_0
  = false
  ∧ calculateBackoff_float64 initial max float64_0_1 pow r
    = jittered_backoff initial max float64_0_1 pow r
  ∧ int64_of_float64 (calculateBackoff_float64 initial max float64_0_1 pow r)
    = Some 3600000000.
Proof.
  intros initial max pow r.
  assert (float64_ltb (jittered_backoff initial max float64_0_1 pow r)
            float64_0 = false) as H by (vm_compute; reflexivity).
  split; [exact H|]. split.
  - exact (proj1 (proj2 (calculateBackoff_float64_not_negative initial max
                           float64_0_1 pow r)) H).
  - vm_compute. reflexivity.
Defined.

(** Three retries asked for and nothing else: the client gets the
    defaults of the backoff. *)
Example scenario_defaults_applied :
  (NewHTTPInferenceClient demo_config).2 = demo_client 3
  ∧ (NewHTTPInferenceClient demo_config).1
    = mkClient 300000000000 (mkTransport 100 100 90000000000).
Proof. split; reflexivity. Qed.

Lemma Generate_with_negative_MaxRetries_witness :
  let config :=
    mkHTTPInferenceClientConfig "http://localhost:8000" 0 0 0 "" (-1) 0 0
      (S754_zero false) (S754_zero false) in
  let c := (NewHTTPInferenceClient config).2 in
  cfg_MaxRetries config < 0
  ∧ MaxRetries (retryConfig c) = cfg_MaxRetries config
  ∧ Generate demo_runtime (demo_server 200 "{}" None) c (Some demo_request)
      fresh
    = ((None, None), fresh).
Proof.
  intros config c. split; [simpl; lia|].
  apply (Generate_with_negative_MaxRetries demo_runtime
           (demo_server 200 "{}" None) config demo_request fresh).
  simpl; lia.
Defined.

(** ** The S3 files client *)

Section S3Client.
Variable w : S3.World.
Variable c : S3.Client.

Ltac unfold_S3 :=
  unfold S3.Store, S3.Delete, S3.headObject, S3.putObject, S3.deleteObject,
    S3.now; unfold_M.

(** What a limited read returns is a prefix of what the reader holds, and
    never longer than a positive limit. *)
Lemma S3_ReadAll_LimitReader_prefix (reader : S3.Reader) (n : Z)
    (content : list byte) :
  S3.ReadAll_LimitReader reader n = Ok content →
  content `prefix_of` S3.data reader
  ∧ (0 < n → Z.of_nat (length content) ≤ n).
Proof.
  unfold S3.ReadAll_LimitReader. cbv zeta. intros H.
  destruct (Z.leb_spec n 0).
  - simplify_eq. split; [apply prefix_nil | lia].
  - destruct (Z.ltb_spec n (Z.of_nat (length (S3.data reader)))).
    + simplify_eq. split; [apply prefix_take |].
      intros _. rewrite length_take. lia.
    + destruct (S3.failure reader);
        [destruct ((n =? _) && _) |]; simplify_eq; split; done || lia.
Qed.

(** X26. Store never overwrites and uploads at most once. It asks for the
    object first and stops there unless S3 answers NotFound; what it then
    uploads, under the resolved key, is a prefix of the reader's bytes
    that is within the size limit, with its length as ContentLength; it
    returns metadata only after a second HeadObject. *)
Theorem S3_Store_never_overwrites (location : string) (fileSizeLimit : Z)
    (reader : S3.Reader) (calls : list S3.Call) :
  let key := S3.resolveKey c location in
  let head := S3.CallHeadObject (S3.bucket c) key in
  let out := S3.Store w c location fileSizeLimit reader calls in
  (out.2 = calls ++ [head] ∧ out.1.1 = None)
  ∨ ∃ content,
      S3.HeadObject w (length calls) (S3.bucket c) key = S3.Failed S3.NotFound
      ∧ content `prefix_of` S3.data reader
      ∧ Z.of_nat (length content) ≤ fileSizeLimit
      ∧ let put := S3.CallPutObject (S3.bucket c) key content
                     (Z.of_nat (length content)) in
        (out.2 = calls ++ [head; put] ∧ out.1.1 = None)
        ∨ out.2 = calls ++ [head; put; head].
Proof.
  intros key head out. subst out. unfold_S3. fold key. fold head.
  destruct (S3.HeadObject w (length calls) (S3.bucket c) key)
    as [?|err] eqn:Hh; [left; done |].
  destruct err; simpl; try (left; done).
  destruct (S3.ReadAll_LimitReader reader (S3.int64_add fileSizeLimit 1))
    as [content|?] eqn:Hr; [| left; done].
  destruct (Z.gtb_spec (Z.of_nat (length content)) fileSizeLimit);
    [left; done |].
  right. exists content.
  apply S3_ReadAll_LimitReader_prefix in Hr as [Hp _].
  split_and!; [done .. |].
  repeat case_match; simpl; rewrite <- ?(assoc_L (++)); simpl; auto.
Qed.

(** X27. The size limit of Store, for a limit below the largest int64 and
    an object that is not there yet. A reader that holds no more than the
    limit and ends well has exactly its bytes uploaded; if it ends with an
    error, that error is returned and nothing is uploaded. A reader that
    holds more than the limit gives ErrFileTooLarge and nothing is
    uploaded, whether it would fail later or not, with one exception:
    when it holds exactly one byte more than a limit that is not negative
    and returns its error together with that byte, the error is returned
    instead. A negative limit refuses every input with ErrFileTooLarge. *)
Theorem S3_Store_size_limit (location : string) (fileSizeLimit : Z)
    (reader : S3.Reader) (calls : list S3.Call) :
  - 2 ^ 63 ≤ fileSizeLimit < 2 ^ 63 - 1 →
  let key := S3.resolveKey c location in
  let head := S3.CallHeadObject (S3.bucket c) key in
  let size := Z.of_nat (length (S3.data reader)) in
  let out := S3.Store w c location fileSizeLimit reader calls in
  S3.HeadObject w (length calls) (S3.bucket c) key = S3.Failed S3.NotFound →
  (size ≤ fileSizeLimit → S3.failure reader = None →
     ∃ rest, out.2 = calls ++ [head; S3.CallPutObject (S3.bucket c) key
                                       (S3.data reader) size] ++ rest)
  ∧ (size ≤ fileSizeLimit → ∀ err, S3.failure reader = Some err →
     out = (None, Some (S3.Errorf_read "failed to read content" err),
            calls ++ [head]))
  ∧ (fileSizeLimit < size →
     fileSizeLimit < 0 ∨ size ≠ fileSizeLimit + 1
     ∨ S3.failure reader = None ∨ S3.failure_with_data reader = false →
     out = (None, Some S3.ErrFileTooLarge, calls ++ [head]))
  ∧ (0 ≤ fileSizeLimit → size = fileSizeLimit + 1 →
     S3.failure_with_data reader = true →
     ∀ err, S3.failure reader = Some err →
     out = (None, Some (S3.Errorf_read "failed to read content" err),
            calls ++ [head])).
Proof.
  intros Hl key head size out Hh. subst out. unfold_S3. fold key. fold head.
  rewrite Hh. simpl.
  assert (S3.int64_add fileSizeLimit 1 = fileSizeLimit + 1) as ->.
  { unfold S3.int64_add.
    rewrite Z.mod_small by lia. lia. }
  unfold S3.ReadAll_LimitReader. cbv zeta. fold size.
  split_and!.
  - intros Hs Hf. rewrite Hf.
    destruct (Z.leb_spec (fileSizeLimit + 1) 0); [lia |].
    destruct (Z.ltb_spec (fileSizeLimit + 1) size); [lia |].
    fold size.
    destruct (Z.gtb_spec size fileSizeLimit); [lia |].
    repeat case_match; simpl; rewrite <- ?(assoc_L (++)); simpl; eauto.
  - intros Hs err Hf. rewrite Hf.
    destruct (Z.leb_spec (fileSizeLimit + 1) 0); [lia |].
    destruct (Z.ltb_spec (fileSizeLimit + 1) size); [lia |].
    destruct (Z.eqb_spec (fileSizeLimit + 1) size); [lia |].
    done.
  - intros Hs Hcase.
    destruct (Z.leb_spec (fileSizeLimit + 1) 0).
    { change (Z.of_nat (length (@nil byte))) with 0.
      destruct (Z.gtb_spec 0 fileSizeLimit); [done | lia]. }
    destruct (Z.ltb_spec (fileSizeLimit + 1) size).
    { rewrite length_take.
      destruct (Z.gtb_spec
                  (Z.of_nat (Z.to_nat (fileSizeLimit + 1)
                               `min` length (S3.data reader)))
                  fileSizeLimit); [done | lia]. }
    assert (size = fileSizeLimit + 1) as Hsize by lia.
    destruct Hcase as [?|[?|[Hf|Hwith]]]; [lia | lia | |].
    + rewrite Hf. fold size.
      destruct (Z.gtb_spec size fileSizeLimit); [done | lia].
    + rewrite Hwith.
      destruct (Z.eqb_spec (fileSizeLimit + 1) size); [| lia].
      destruct (S3.failure reader); cbn [andb negb]; fold size;
        (destruct (Z.gtb_spec size fileSizeLimit); [done | lia]).
  - intros H0 Hsize Hwith err Hf. rewrite Hf, Hwith.
    destruct (Z.leb_spec (fileSizeLimit + 1) 0); [lia |].
    destruct (Z.ltb_spec (fileSizeLimit + 1) size); [lia |].
    rewrite andb_false_r. done.
Qed.

(** X28. with the largest int64 as size limit, the limit handed to the
    limited reader wraps around to the smallest int64, so nothing is read:
    whatever the reader holds, and even if it would fail, Store uploads an
    empty object, and reports the size 0 when S3 accepts it. *)
Theorem S3_Store_limit_MaxInt64 (location : string) (reader : S3.Reader)
    (calls : list S3.Call) :
  let key := S3.resolveKey c location in
  let head := S3.CallHeadObject (S3.bucket c) key in
  let out := S3.Store w c location (2 ^ 63 - 1) reader calls in
  S3.HeadObject w (length calls) (S3.bucket c) key = S3.Failed S3.NotFound →
  (∃ rest, out.2 = calls ++ [head; S3.CallPutObject (S3.bucket c) key [] 0]
                     ++ rest)
  ∧ ∀ md, out.1.1 = Some md → S3.Size md = 0.
Proof.
  intros key head out Hh. subst out. unfold_S3. fold key. fold head.
  rewrite Hh.
  assert (S3.int64_add (2 ^ 63 - 1) 1 = - 2 ^ 63) as -> by reflexivity.
  unfold S3.ReadAll_LimitReader.
  change (- 2 ^ 63 <=? 0) with true.
  change (negb (S3.is_NotFound S3.NotFound)) with false. cbv beta iota.
  change (Z.of_nat (length (@nil byte)) >? 2 ^ 63 - 1) with false.
  cbv beta iota.
  split.
  - repeat case_match; simpl; rewrite <- ?(assoc_L (++)); simpl; eauto.
  - intros md. repeat case_match; simpl; intros; simplify_eq; done.
Qed.

(** X29. what Store returns. It returns metadata or an error, never both
    and never neither; metadata come only after HeadObject, PutObject and
    HeadObject in this order, the last two answered without error, and
    carry the resolved key, the number of bytes uploaded, which is within
    the limit, and the LastModified of S3, or the time of the clock when
    S3 gives none. *)
Theorem S3_Store_outcome (location : string) (fileSizeLimit : Z)
    (reader : S3.Reader) (calls : list S3.Call) :
  let key := S3.resolveKey c location in
  let head := S3.CallHeadObject (S3.bucket c) key in
  let n := length calls in
  let out := S3.Store w c location fileSizeLimit reader calls in
  match out.1 with
  | (Some md, None) =>
      ∃ content lastModified,
        out.2 = calls ++ [head;
                          S3.CallPutObject (S3.bucket c) key content
                            (S3.Size md);
                          head]
        ∧ S3.PutObject w (S n) (S3.bucket c) key content = S3.Done tt
        ∧ S3.HeadObject w (S (S n)) (S3.bucket c) key = S3.Done lastModified
        ∧ S3.Location md = key
        ∧ S3.Size md = Z.of_nat (length content)
        ∧ S3.Size md ≤ fileSizeLimit
        ∧ S3.ModTime md = default (S3.time_Now w (S (S (S n)))) lastModified
  | (None, Some _) => True
  | _ => False
  end.
Proof.
  intros key head n out. subst out. unfold_S3. fold key. fold head.
  destruct (S3.HeadObject w (length calls) (S3.bucket c) key)
    as [?|err] eqn:Hh; [done |].
  destruct (negb (S3.is_NotFound err)); [done |].
  destruct (S3.ReadAll_LimitReader reader (S3.int64_add fileSizeLimit 1))
    as [content|?] eqn:Hr; [| done].
  destruct (Z.gtb_spec (Z.of_nat (length content)) fileSizeLimit); [done |].
  assert (∀ x, length (calls ++ [x]) = S n) as L1
    by (intros; rewrite length_app; simpl; lia).
  assert (∀ x y, length ((calls ++ [x]) ++ [y]) = S (S n)) as L2
    by (intros; rewrite length_app, L1; simpl; lia).
  assert (∀ x y z, length (((calls ++ [x]) ++ [y]) ++ [z]) = S (S (S n)))
    as L3 by (intros; rewrite length_app, L2; simpl; lia).
  rewrite L1.
  destruct (S3.PutObject w (S n) (S3.bucket c) key content)
    as [[]|?] eqn:Hp; [| done].
  rewrite L2.
  destruct (S3.HeadObject w (S (S n)) (S3.bucket c) key)
    as [lm|?] eqn:Hh2; [| done].
  rewrite L3. simpl. exists content, lm.
  rewrite <- !(assoc_L (++)). simpl.
  split_and!; done.
Qed.

(** X30. Delete asks for the object first. If S3 answers NotFound it
    returns os.ErrNotExist, and after any failed HeadObject it returns an
    error without calling DeleteObject; otherwise it calls DeleteObject
    once, for the resolved key, and returns nil exactly when that call
    succeeds. *)
Theorem S3_Delete_guarded (location : string) (calls : list S3.Call) :
  let key := S3.resolveKey c location in
  let head := S3.CallHeadObject (S3.bucket c) key in
  let out := S3.Delete w c location calls in
  match S3.HeadObject w (length calls) (S3.bucket c) key with
  | S3.Failed err =>
      out.2 = calls ++ [head]
      ∧ out.1 ≠ None
      ∧ (err = S3.NotFound ↔ out.1 = Some S3.os_ErrNotExist)
  | S3.Done _ =>
      out.2 = calls ++ [head; S3.CallDeleteObject (S3.bucket c) key]
      ∧ out.1 ≠ Some S3.os_ErrNotExist
      ∧ (out.1 = None ↔
         S3.DeleteObject w (S (length calls)) (S3.bucket c) key = S3.Done tt)
  end.
Proof.
  intros key head out. subst out. unfold_S3. fold key. fold head.
  destruct (S3.HeadObject w (length calls) (S3.bucket c) key) as [?|err].
  - simpl. rewrite length_app. simpl.
    replace (length calls + 1)%nat with (S (length calls)) by lia.
    rewrite <- (assoc_L (++)). simpl.
    destruct (S3.DeleteObject w (S (length calls)) (S3.bucket c) key)
      as [[]|?]; simpl; split_and!; try done.
  - destruct err; simpl; split_and!; try done.
Qed.

End S3Client.

(** The size limit on the demo bucket: two bytes within a limit of 10 are
    uploaded as they are. *)
Lemma S3_Store_size_limit_witness :
  ∃ rest,
    (S3.Store demo_s3_bucket demo_s3_client "input.jsonl" 10 demo_s3_reader
       []).2
    = [] ++ [S3.CallHeadObject "batch-files" "tenant-a/input.jsonl";
             S3.CallPutObject "batch-files" "tenant-a/input.jsonl"
               [x68; x69]%byte 2] ++ rest.
Proof.
  refine (proj1 (S3_Store_size_limit demo_s3_bucket demo_s3_client
                   "input.jsonl" 10 demo_s3_reader [] _ _) _ _);
    [lia | reflexivity | simpl; lia | reflexivity].
Defined.

(** The largest limit on the demo bucket: the two bytes are dropped and an
    empty object is uploaded. *)
Lemma S3_Store_limit_MaxInt64_witness :
  ∃ rest,
    (S3.Store demo_s3_bucket demo_s3_client "input.jsonl" (2 ^ 63 - 1)
       demo_s3_reader []).2
    = [] ++ [S3.CallHeadObject "batch-files" "tenant-a/input.jsonl";
             S3.CallPutObject "batch-files" "tenant-a/input.jsonl" [] 0]
         ++ rest.
Proof.
  refine (proj1 (S3_Store_limit_MaxInt64 demo_s3_bucket demo_s3_client
                   "input.jsonl" demo_s3_reader [] _)).
  reflexivity.
Defined.

(** The answer 429 twice and a context cancelled while the second attempt
    is under way: [Generate] hands back the error of the second attempt,
    after two attempts and one wait. *)
Lemma Generate_context_done_keeps_error_witness :
  let w := demo_cancel_in_second_attempt in
  let c := demo_client 2 in
  let s1 := after_wait w 0 (generateOnce demo_runtime w c demo_request fresh).2
  in
  Generate demo_runtime w c (Some demo_request) fresh
  = ((None, Some demo_429_error),
     observe_ctx (generateOnce demo_runtime w c demo_request s1).2)
  ∧ (Category demo_429_error = ErrCategoryRateLimit
     ∨ Category demo_429_error = ErrCategoryServer)
  ∧ attempts (Generate demo_runtime w c (Some demo_request) fresh).2
    = (attempts fresh + 1 + 1)%nat
  ∧ length (waits (Generate demo_runtime w c (Some demo_request) fresh).2)
    = (length (waits fresh) + 1)%nat.
Proof.
  intros w c s1.
  apply (Generate_context_done_keeps_error demo_runtime w c demo_request
           1 fresh s1 demo_429_error).
  - simpl; lia.
  - cbn [retried]. cbv zeta.
    split; [exists demo_429_error; split; vm_compute; reflexivity|].
    split; [reflexivity|]. split; [reflexivity|]. reflexivity.
  - vm_compute. reflexivity.
  - reflexivity.
  - discriminate.
Defined.
